(** * Personality-prediction service: the feature pipeline of [app.py]

    A shallow embedding of the [Dataset] and [Predictor] classes of
    [src/app.py], with the part of Python's [re] module that their
    patterns use, and the properties of the pipeline proved over it.

    Conventions.
    - A Python [str] is a list of code points ([text]); trait names,
      language names and file paths, which the program never scans,
      are Rocq strings.
    - A Python call that can raise returns a [result]; an exception is
      its class name and its argument.
    - Numbers are the rationals they denote. [int / int] is the exact
      quotient in [Q]; the [float] that Python returns is that quotient
      rounded to binary64 (every average that a statement below names
      is a dyadic rational and so is exact). The outputs of the models
      are rationals too.
    - Instance attributes are record fields; a method that assigns to
      [self] returns the updated record. *)

From Stdlib Require Import QArith Qround Qabs Lqa Ascii.
From stdpp Require Import gmap strings list fin_maps.

Local Open Scope nat_scope.

(** ** Exceptions and results *)

Inductive exn : Type :=
| PyErr (cls : string) (arg : string).

Definition exn_class (e : exn) : string :=
  match e with PyErr c _ => c end.

Definition ZeroDivisionError : exn := PyErr "ZeroDivisionError" "division by zero".
Definition KeyError (k : string) : exn := PyErr "KeyError" k.
Definition IndexError : exn := PyErr "IndexError" "index out of bounds".
Definition TypeError (what : string) : exn := PyErr "TypeError" what.
Definition AttributeError (attr : string) : exn := PyErr "AttributeError" attr.
Definition ValueError (what : string) : exn := PyErr "ValueError" what.

Inductive result (A : Type) : Type :=
| Return (a : A)
| Raise (e : exn).

Arguments Return {A} a.
Arguments Raise {A} e.

Definition bind {A B : Type} (m : result A) (f : A -> result B) : result B :=
  match m with
  | Return a => f a
  | Raise e => Raise e
  end.

Notation "'let*' x ':=' m 'in' k" := (bind m (fun x => k))
  (at level 10, x pattern, m at level 100, k at level 200).

(** The class of the exception a computation raised, if it raised. *)
Definition raised_class {A : Type} (m : result A) : option string :=
  match m with
  | Return _ => None
  | Raise e => Some (exn_class e)
  end.

(** [for x in xs: acc = f(acc, x)], stopping at the first exception. *)
Fixpoint foldM {A B : Type} (f : B -> A -> result B) (xs : list A) (acc : B)
  : result B :=
  match xs with
  | [] => Return acc
  | x :: xs' => let* acc' := f acc x in foldM f xs' acc'
  end.

(** [list(map(f, xs))], stopping at the first exception. *)
Fixpoint mapM {A B : Type} (f : A -> result B) (xs : list A) : result (list B) :=
  match xs with
  | [] => Return []
  | x :: xs' => let* y := f x in let* ys := mapM f xs' in Return (y :: ys)
  end.

(** ** Text *)

Definition char : Type := N.
Definition text : Type := list char.

Definition of_string (s : string) : text :=
  map Ascii.N_of_ascii (String.list_ascii_of_string s).

Fixpoint starts_with (w s : text) : bool :=
  match w, s with
  | [], _ => true
  | a :: w', b :: s' => (a =? b)%N && starts_with w' s'
  | _ :: _, [] => false
  end.

Fixpoint take_while (p : char -> bool) (s : text) : text :=
  match s with
  | c :: s' => if p c then c :: take_while p s' else []
  | [] => []
  end.

Fixpoint drop_while (p : char -> bool) (s : text) : text :=
  match s with
  | c :: s' => if p c then drop_while p s' else s
  | [] => []
  end.

Definition in_range (lo hi c : char) : bool := ((lo <=? c) && (c <=? hi))%N.
Arguments in_range (lo hi c)%_N.

Definition is_upper (c : char) : bool := in_range 65 90 c.
Definition is_lower (c : char) : bool := in_range 97 122 c.
(** [[a-zA-Z]] *)
Definition is_letter (c : char) : bool := is_lower c || is_upper c.
Definition is_digit (c : char) : bool := in_range 48 57 c.

(** [\s] on [str], and the separators of [str.split()]: the code points
    for which [str.isspace] holds. *)
Definition is_space (c : char) : bool :=
  in_range 9 13 c || in_range 28 32 c || (c =? 133)%N || (c =? 160)%N
  || (c =? 5760)%N || in_range 8192 8202 c || (c =? 8232)%N || (c =? 8233)%N
  || (c =? 8239)%N || (c =? 8287)%N || (c =? 12288)%N.

(** [.] without [re.DOTALL]: anything but a line feed. *)
Definition is_dot (c : char) : bool := negb (c =? 10)%N.

(** [str.lower] on the ASCII letters. [process_tweet] lower-cases a
    string in which only ASCII letters and spaces are left. *)
Definition lower_char (c : char) : char := if is_upper c then (c + 32)%N else c.
Definition lower (s : text) : text := map lower_char s.

(** [str.split()]: the maximal runs of non-space characters. [cur] is the
    token under construction, last character first. *)
Fixpoint split_go (cur : text) (s : text) : list text :=
  match s with
  | [] => match cur with [] => [] | _ => [rev cur] end
  | c :: s' =>
      if is_space c
      then match cur with [] => split_go [] s' | _ => rev cur :: split_go [] s' end
      else split_go (c :: cur) s'
  end.

Definition split (s : text) : list text := split_go [] s.

(** [sep.join(ws)] *)
Fixpoint join (sep : text) (ws : list text) : text :=
  match ws with
  | [] => []
  | [w] => w
  | w :: ws' => w ++ sep ++ join sep ws'
  end.

(** [w in ws] for a list or set of strings. *)
Definition mem (w : text) (ws : list text) : bool := bool_decide (w ∈ ws).

(** ** The fragment of [re] the patterns use

    One capturing group is enough: no pattern of the program has two.
    [Rep lo hi r] is the greedy [r{lo,hi}], so [r?], [r*], [r+] and
    [r{3,}] are [Rep 0 (Some 1) r], [Rep 0 None r], [Rep 1 None r] and
    [Rep 3 None r]. *)

Inductive regex : Type :=
| Lit (c : char)
| Cls (p : char -> bool)
| Cat (r1 r2 : regex)
| Alt (r1 r2 : regex)
| Rep (lo : nat) (hi : option nat) (r : regex)
| Grp (r : regex)
| Ref.

(** Where a match ended (the text left after it) and what group 1 holds. *)
Definition mres : Type := (text * option text)%type.
Definition cont : Type := text -> option text -> option mres.
Definition matcher : Type := text -> option text -> cont -> option mres.

Definition or_else (a b : option mres) : option mres :=
  match a with
  | Some m => Some m
  | None => b
  end.

Definition below (i : nat) (hi : option nat) : bool :=
  match hi with
  | Some h => i <? h
  | None => true
  end.

(** The greedy loop of a repeat: one more iteration first, and only if
    what follows fails after it, stop here. An iteration has to consume
    input (no repeated sub-pattern of the program matches the empty
    string), so [length s] iterations are all there can be. *)
Fixpoint rep_loop (m : matcher) (lo : nat) (hi : option nat) (k : cont)
    (fuel i : nat) (s : text) (g : option text) : option mres :=
  let stop := if lo <=? i then k s g else None in
  match fuel with
  | O => stop
  | S fuel' =>
      if below i hi
      then or_else
             (m s g (fun s1 g1 =>
                if length s1 <? length s
                then rep_loop m lo hi k fuel' (S i) s1 g1
                else None))
             stop
      else stop
  end.

(** The backtracking matcher, in continuation-passing style: [k] is the
    rest of the pattern, and the first success in priority order wins
    (left alternative first, longer repeat first). *)
Fixpoint rx (r : regex) : matcher :=
  match r with
  | Lit c => fun s g k =>
      match s with
      | x :: s' => if (x =? c)%N then k s' g else None
      | [] => None
      end
  | Cls p => fun s g k =>
      match s with
      | x :: s' => if p x then k s' g else None
      | [] => None
      end
  | Cat a b => fun s g k => rx a s g (fun s1 g1 => rx b s1 g1 k)
  | Alt a b => fun s g k => or_else (rx a s g k) (rx b s g k)
  | Rep lo hi a => fun s g k => rep_loop (rx a) lo hi k (length s) 0 s g
  | Grp a => fun s g k =>
      rx a s g (fun s1 _ => k s1 (Some (take (length s - length s1) s)))
  | Ref => fun s g k =>
      match g with
      | Some w => if starts_with w s then k (drop (length w) s) g else None
      | None => None
      end
  end.

(** [pattern.match(s)]: a match that starts at the head of [s]. *)
Definition match_at (r : regex) (s : text) : option mres :=
  rx r s None (fun s1 g1 => Some (s1, g1)).

(** The literal pattern [w]; for the empty text, the pattern that matches
    the empty string. *)
Fixpoint lits (w : text) : regex :=
  match w with
  | [] => Rep 0 (Some 0) Ref
  | [c] => Lit c
  | c :: w' => Cat (Lit c) (lits w')
  end.

Definition Opt (r : regex) : regex := Rep 0 (Some 1) r.
Definition Star (r : regex) : regex := Rep 0 None r.
Definition Plus (r : regex) : regex := Rep 1 None r.

(** A replacement template: literal characters and [\1]. *)
Inductive titem : Type :=
| TChr (c : char)
| TGrp.

Definition expand (tmpl : list titem) (g : option text) : text :=
  flat_map (fun t => match t with
                     | TChr c => [c]
                     | TGrp => match g with Some w => w | None => [] end
                     end) tmpl.

Definition tlit (s : string) : list titem := map TChr (of_string s).

(** [len(re.findall(r, s))]: the leftmost matches, none overlapping the
    one before it. [skip] counts the characters of the last match that
    are still to be passed. *)
Fixpoint count_go (r : regex) (skip : nat) (s : text) : nat :=
  match s with
  | [] =>
      match skip with
      | O => match match_at r [] with Some _ => 1 | None => 0 end
      | S _ => 0
      end
  | _ :: s' =>
      match skip with
      | S j => count_go r j s'
      | O =>
          match match_at r s with
          | Some (rest, _) => S (count_go r (pred (length s - length rest)) s')
          | None => count_go r 0 s'
          end
      end
  end.

Definition findall_len (r : regex) (s : text) : nat := count_go r 0 s.

(** [re.sub(r, tmpl, s)] *)
Fixpoint sub_go (r : regex) (tmpl : list titem) (skip : nat) (s : text) : text :=
  match s with
  | [] =>
      match skip with
      | O => match match_at r [] with Some (_, g) => expand tmpl g | None => [] end
      | S _ => []
      end
  | c :: s' =>
      match skip with
      | S j => sub_go r tmpl j s'
      | O =>
          match match_at r s with
          | Some (rest, g) =>
              match length s - length rest with
              | O => expand tmpl g ++ c :: sub_go r tmpl 0 s'
              | S j => expand tmpl g ++ sub_go r tmpl j s'
              end
          | None => c :: sub_go r tmpl 0 s'
          end
      end
  end.

Definition re_sub (r : regex) (tmpl : list titem) (s : text) : text :=
  sub_go r tmpl 0 s.

(** ** Writing patterns *)

Definition chr (a : Ascii.ascii) : char := Ascii.N_of_ascii a.
Arguments chr a%_char.

(** [r1|r2|...|rn] *)
Fixpoint alts (rs : list regex) : regex :=
  match rs with
  | [] => Cls (fun _ => false)
  | [r] => r
  | r :: rs' => Alt r (alts rs')
  end.

Definition lit (s : string) : regex := lits (of_string s).

(** ** The patterns of [Dataset] *)

(** [(https?|ftp)://[^\s]*] *)
Definition URL_REGEX : regex :=
  Cat (Grp (Alt (Cat (lit "http") (Opt (Lit (chr "s")))) (lit "ftp")))
      (Cat (lit "://") (Star (Cls (fun c => negb (is_space c))))).

(** [@username] *)
Definition REPLY_REGEX : regex := lit "@username".

Definition URL_TAG : list titem := tlit "URL".
Definition REPLY_TAG : list titem := tlit "REP".

(** [(.)\1{3,}], replaced by [\1\1\1] *)
Definition TRIM_REGEX : regex := Cat (Grp (Cls is_dot)) (Rep 3 None Ref).
Definition TRIM_TAG : list titem := [TGrp; TGrp; TGrp].

(** [[^a-zA-Z]] *)
Definition NONLETTER_REGEX : regex := Cls (fun c => negb (is_letter c)).

(** [(?::|;|:'|=)(?:-)?(?:\)|\(|D|P|d|p|3)|<3|</3|xd|xD|XD] *)
Definition EMOTICON_REGEX : regex :=
  alts [ Cat (alts [Lit (chr ":"); Lit (chr ";"); lit ":'"; Lit (chr "=")])
             (Cat (Opt (Lit (chr "-")))
                  (alts [Lit (chr ")"); Lit (chr "("); Lit (chr "D"); Lit (chr "P");
                         Lit (chr "d"); Lit (chr "p"); Lit (chr "3")]));
         lit "<3"; lit "</3"; lit "xd"; lit "xD"; lit "XD" ].

(** [!+] *)
Definition EXCLAMATION_REGEX : regex := Plus (Lit (chr "!")).

Section Words.

(** [\w] on [str] is "alphanumeric in the Unicode database, or [_]".
    Above ASCII that is the table [unicode_alnum], which is data of the
    Python runtime. *)
Variable unicode_alnum : char -> bool.

Definition is_word (c : char) : bool :=
  is_letter c || is_digit c || (c =? 95)%N || ((128 <=? c)%N && unicode_alnum c).

(** [(\w)\1{3,}] *)
Definition REPETITION_REGEX : regex := Cat (Grp (Cls is_word)) (Rep 3 None Ref).

(** [#(\w+)] *)
Definition HASHTAG_REGEX : regex := Cat (Lit (chr "#")) (Grp (Plus (Cls is_word))).

End Words.

(** ** Numbers *)

(** [a / b] on two [int]s. *)
Definition true_div (a b : nat) : result Q :=
  match b with
  | O => Raise ZeroDivisionError
  | S _ => Return (Qred (Z.of_nat a # Pos.of_nat b))
  end.

(** The integer nearest to [q], ties to the even one. *)
Definition round_half_even (q : Q) : Z :=
  let f := Qfloor q in
  match Qcompare (q - inject_Z f) (1 # 2) with
  | Lt => f
  | Gt => (f + 1)%Z
  | Eq => if Z.even f then f else (f + 1)%Z
  end.

(** [round(x, 2)] on the number [x] denotes: the nearest whole number of
    hundredths, ties to the even one. *)
Definition round2 (x : Q) : Q := Qred (round_half_even (x * 100) # 100).

(** ** class Dataset *)

Module Dataset.

(** The attributes of an instance. [timeline] is an option because the
    [count_avg_*] methods test it against [None]; [__init__] never
    stores [None] in it. *)
Record t : Type := mk {
  timeline : option (list text);
  avg_emoticon_counts : option Q;
  avg_hashtag_counts : option Q;
  avg_exclamation_counts : option Q;
  avg_reply_counts : option Q;
  avg_repetition_counts : option Q;
  avg_tweet_len : option Q;
  processed_timeline : option text
}.

(** One element of [timeline_list]: a JSON object with string values. *)
Definition tweet_dict : Type := gmap string text.

Definition blank : t :=
  mk (Some []) None None None None None None None.

Definition append_tweet (self : t) (tweet : text) : result t :=
  match timeline self with
  | Some tl =>
      Return (mk (Some (tl ++ [tweet])) (avg_emoticon_counts self)
                 (avg_hashtag_counts self) (avg_exclamation_counts self)
                 (avg_reply_counts self) (avg_repetition_counts self)
                 (avg_tweet_len self) (processed_timeline self))
  | None => Raise (AttributeError "append")
  end.

(** [Dataset.__init__] *)
Definition init (timeline_list : option (list tweet_dict)) : result t :=
  match timeline_list with
  | Some tds =>
      foldM (fun self td =>
               match td !! "text"%string with
               | Some tweet => append_tweet self tweet
               | None => Raise (KeyError "text")
               end) tds blank
  | None => Return blank
  end.

(** The body shared by the six [count_avg_*] methods:
    [if not self.timeline is None: count = 0; for tweet in self.timeline:
     count += n(tweet); return count/len(self.timeline)],
    and [None] when the [if] is not taken. *)
Definition count_avg (n : text -> nat) (self : t) : result (option Q) :=
  match timeline self with
  | Some tl =>
      let count := fold_left (fun count tweet => count + n tweet) tl 0 in
      let* avg := true_div count (length tl) in
      Return (Some avg)
  | None => Return None
  end.

Definition count_avg_emoticons : t -> result (option Q) :=
  count_avg (findall_len EMOTICON_REGEX).

Definition count_avg_replies : t -> result (option Q) :=
  count_avg (findall_len REPLY_REGEX).

Definition count_avg_exclamations : t -> result (option Q) :=
  count_avg (findall_len EXCLAMATION_REGEX).

Definition count_avg_tweet_len : t -> result (option Q) :=
  count_avg (fun tweet => length tweet).

Section Runtime.

Variable unicode_alnum : char -> bool.

(** [nltk.corpus.stopwords.words]: the word list of a language, or the
    exception the corpus reader raises when it has none. *)
Variable stopwords_words : string -> result (list text).

Definition count_avg_repetitions : t -> result (option Q) :=
  count_avg (findall_len (REPETITION_REGEX unicode_alnum)).

Definition count_avg_hashtags : t -> result (option Q) :=
  count_avg (findall_len (HASHTAG_REGEX unicode_alnum)).

(** [Dataset.process_tweet] *)
Definition process_tweet (text0 : text) (language : string) : result text :=
  let text1 := re_sub URL_REGEX URL_TAG text0 in
  let text2 := re_sub REPLY_REGEX REPLY_TAG text1 in
  let text3 := re_sub TRIM_REGEX TRIM_TAG text2 in
  let letters_only := re_sub NONLETTER_REGEX (tlit " ") text3 in
  let words := split (lower letters_only) in
  let* stops := stopwords_words language in
  let meaningful_words := List.filter (fun w => negb (mem w stops)) words in
  Return (join (of_string " ") meaningful_words).

(** [Dataset.process]: the one-document list and the feature list. *)
Definition process (self : t) : result (t * (list text * list (option Q))) :=
  let* tl := match timeline self with
             | Some tl => Return tl
             | None => Raise (TypeError "'NoneType' object is not iterable")
             end in
  let* processed := mapM (fun tweet => process_tweet tweet "english") tl in
  let doc := join (of_string " ") processed in
  let self' := mk (timeline self) (avg_emoticon_counts self)
                  (avg_hashtag_counts self) (avg_exclamation_counts self)
                  (avg_reply_counts self) (avg_repetition_counts self)
                  (avg_tweet_len self) (Some doc) in
  Return (self',
          ([doc],
           [avg_emoticon_counts self; avg_hashtag_counts self;
            avg_exclamation_counts self; avg_reply_counts self;
            avg_repetition_counts self; avg_tweet_len self])).

(** [Dataset.generate_features] *)
Definition generate_features (self : t) : result t :=
  let* emoticons := count_avg_emoticons self in
  let* hashtags := count_avg_hashtags self in
  let* exclamations := count_avg_exclamations self in
  let* replies := count_avg_replies self in
  let* repetitions := count_avg_repetitions self in
  let* tweet_len := count_avg_tweet_len self in
  Return (mk (timeline self) emoticons hashtags exclamations replies
             repetitions tweet_len (processed_timeline self)).

End Runtime.

End Dataset.

(** ** class Predictor *)

Module Predictor.

(** An entry of a numeric array; [None] is Python's [None] in an array
    of objects. *)
Definition cell : Type := option Q.
Definition matrix : Type := list (list cell).

(** What [pickle.load] returns: a fitted vectorizer, with its
    [transform(docs).toarray()], or a fitted model, with its [predict].
    Both are code of scikit-learn and may raise. *)
Inductive pyobj : Type :=
| Vectorizer (transform : option (list text) -> result matrix)
| Model (predict : matrix -> result (list Q)).

(** The file system under [./models]. *)
Record disk : Type := mkdisk {
  isfile : string -> bool;
  pickle_load : string -> result pyobj
}.

Record t : Type := mk {
  personalities : list string;
  timeline : option (list text);
  features : option (list cell);
  models : gmap string pyobj;
  vectorizers : gmap string pyobj
}.

Definition default_personalities : list string :=
  ["extroverted"; "stable"; "agreeable"; "conscientious"; "open"]%string.

Definition vectorizer_path (personality : string) : string :=
  String.append "./models/" (String.append personality "_vectorizer.pkl").

Definition model_path (personality : string) : string :=
  String.append "./models/" (String.append personality "_model.pkl").

(** [Predictor.__init__] *)
Definition init (dk : disk) (timeline0 : option (list text))
    (features0 : option (list cell)) (personalities0 : list string) : result t :=
  foldM (fun self personality =>
           let* self1 :=
             if isfile dk (vectorizer_path personality)
             then let* o := pickle_load dk (vectorizer_path personality) in
                  Return (mk (personalities self) (timeline self) (features self)
                             (models self)
                             (<[personality := o]> (vectorizers self)))
             else Return self in
           if isfile dk (model_path personality)
           then let* o := pickle_load dk (model_path personality) in
                Return (mk (personalities self1) (timeline self1) (features self1)
                           (<[personality := o]> (models self1))
                           (vectorizers self1))
           else Return self1)
        personalities0
        (mk personalities0 timeline0 features0 ∅ ∅).

(** [d[k]] *)
Definition getitem (d : gmap string pyobj) (k : string) : result pyobj :=
  match d !! k with
  | Some o => Return o
  | None => Raise (KeyError k)
  end.

Definition get_transform (o : pyobj) : result (option (list text) -> result matrix) :=
  match o with
  | Vectorizer f => Return f
  | Model _ => Raise (AttributeError "transform")
  end.

Definition get_predict (o : pyobj) : result (matrix -> result (list Q)) :=
  match o with
  | Model f => Return f
  | Vectorizer _ => Raise (AttributeError "predict")
  end.

(** [np.array([self.features])] as columns to stack: one row. *)
Definition features_row (fs : option (list cell)) : matrix :=
  match fs with
  | Some row => [row]
  | None => [[None]]
  end.

(** [np.column_stack([a, b])] on two 2-D arrays. *)
Definition column_stack (a b : matrix) : result matrix :=
  if length a =? length b
  then Return (zip_with (fun ra rb => ra ++ rb) a b)
  else Raise (ValueError "all the input array dimensions except for the concatenation axis must match exactly").

(** [Predictor.load_input] *)
Definition load_input (self : t) (trait : string) : result matrix :=
  let* v := getitem (vectorizers self) trait in
  let* transform := get_transform v in
  let* text_vec := transform (timeline self) in
  column_stack text_vec (features_row (features self)).

(** [ys[0]] *)
Definition first {A : Type} (ys : list A) : result A :=
  match ys with
  | y :: _ => Return y
  | [] => Raise IndexError
  end.

(** The right-hand side of the assignment in the loop of
    [estimate_traits]. *)
Definition score (self : t) (personality : string) : result Q :=
  let* input_vec := load_input self personality in
  let* m := getitem (models self) personality in
  let* predict := get_predict m in
  let* ys := predict input_vec in
  let* y := first ys in
  Return (round2 y).

(** [Predictor.estimate_traits] *)
Definition estimate_traits (self : t) : result (gmap string Q) :=
  foldM (fun output personality =>
           let* y := score self personality in
           Return (<[personality := y]> output))
        (personalities self) ∅.

End Predictor.

(** ** Respond.post, from the parsed request body to the scores *)

Module Respond.

Section Runtime.

Variable unicode_alnum : char -> bool.
Variable stopwords_words : string -> result (list text).
Variable dk : Predictor.disk.

(** The first three statements after the body is parsed:
    [data = Dataset(post_data); data.generate_features();
     processed_timeline, features = data.process()]. *)
Definition build (post_data : list Dataset.tweet_dict)
  : result (list text * list (option Q)) :=
  let* data := Dataset.init (Some post_data) in
  let* data1 := Dataset.generate_features unicode_alnum data in
  let* r := Dataset.process stopwords_words data1 in
  Return (snd r).

Definition post (post_data : list Dataset.tweet_dict) : result (gmap string Q) :=
  let* r := build post_data in
  let* predictor := Predictor.init dk (Some (fst r)) (Some (snd r))
                      Predictor.default_personalities in
  Predictor.estimate_traits predictor.

End Runtime.

End Respond.

(** * Vocabulary of the statements *)

(** The instance that holds the tweets [tl] and nothing else yet. *)
Definition loaded (tl : list text) : Dataset.t :=
  Dataset.mk (Some tl) None None None None None None None.

(** [post_data] is a list of objects whose ["text"] entries are [tweets]. *)
Definition texts_of (post_data : list Dataset.tweet_dict) (tweets : list text) : Prop :=
  Forall2 (fun td tw => td !! "text"%string = Some tw) post_data tweets.

(** [sum(n(tweet) for tweet in tl)] *)
Definition total (n : text -> nat) (tl : list text) : nat :=
  fold_left (fun count tweet => count + n tweet) tl 0.

(** [total / number of tweets], in lowest terms. *)
Definition average (n : text -> nat) (tl : list text) : Q :=
  Qred (Z.of_nat (total n tl) # Pos.of_nat (length tl)).

(** ** Sample runtime data *)

(** A Unicode table with no alphanumeric above ASCII; the sample texts
    are ASCII. *)
Definition ascii_only : char -> bool := fun _ => false.

(** A sample of NLTK's English list. *)
Definition english_sample : list text :=
  map of_string
    ["i"; "me"; "my"; "myself"; "we"; "our"; "ours"; "ourselves";
     "you"; "your"; "yours"; "he"; "him"; "his"; "she"; "her";
     "it"; "its"; "they"; "them"; "their"; "what"; "which"; "who";
     "this"; "that"; "these"; "those"; "am"; "is"; "are"; "was";
     "were"; "be"; "been"; "being"; "have"; "has"; "had"; "do";
     "does"; "did"; "a"; "an"; "the"; "and"; "but"; "if"; "or";
     "because"; "as"; "until"; "while"; "of"; "at"; "by"; "for";
     "with"; "about"; "to"; "from"; "in"; "out"; "on"; "off";
     "so"; "than"; "too"; "very"; "s"; "t"; "can"; "will"; "just";
     "now"]%string.

(** A corpus reader that has the English list only and raises [OSError]
    (no such file) for any other language, as NLTK's does. *)
Definition sample_stopwords (language : string) : result (list text) :=
  if String.eqb language "english"
  then Return english_sample
  else Raise (PyErr "OSError" language).

Definition tweet (s : string) : Dataset.tweet_dict :=
  {[ "text"%string := of_string s ]}.

Definition two_posts : list Dataset.tweet_dict :=
  [tweet "I love this!!! :) #great"; tweet "meh"].

(** ** [process_tweet] without the exception plumbing *)

(** The words of a tweet before the stopwords are dropped: the four
    substitutions, [lower] and [split] of [process_tweet]. *)
Definition words_of (text0 : text) : list text :=
  split (lower (re_sub NONLETTER_REGEX (tlit " ")
                  (re_sub TRIM_REGEX TRIM_TAG
                     (re_sub REPLY_REGEX REPLY_TAG
                        (re_sub URL_REGEX URL_TAG text0))))).

(** What [process_tweet] returns once the stopword list [stops] is there. *)
Definition cleaned (stops : list text) (text0 : text) : text :=
  join (of_string " ") (List.filter (fun w => negb (mem w stops)) (words_of text0)).

(** ** Loaded artifacts *)

(** The row of cells that [np.array([self.features])] puts after the
    text columns. *)
Definition feature_cells (p : Predictor.t) : list Predictor.cell :=
  match Predictor.features p with
  | Some row => row
  | None => [None]
  end.

(** Trait [t] has no loaded vectorizer or no loaded model. *)
Definition missing (p : Predictor.t) (t : string) : Prop :=
  Predictor.vectorizers p !! t = None \/ Predictor.models p !! t = None.

(** The vectorizer of trait [t] is loaded and turns the document list of
    [p] into the single row [row]. *)
Definition vectorized (p : Predictor.t) (t : string) (row : list Predictor.cell) : Prop :=
  exists transform,
    Predictor.vectorizers p !! t = Some (Predictor.Vectorizer transform) /\
    transform (Predictor.timeline p) = Return [row].

(** Trait [t] has a loaded vectorizer and a loaded model, and the first
    output of the model on the input row of [t] is [y]. *)
Definition answers (p : Predictor.t) (t : string) (y : Q) : Prop :=
  exists row predict ys,
    vectorized p t row /\
    Predictor.models p !! t = Some (Predictor.Model predict) /\
    predict [row ++ feature_cells p] = Return (y :: ys).

(** The artifacts that are loaded for trait [t] do their part without
    raising. *)
Definition runs (p : Predictor.t) (t : string) : Prop :=
  (is_Some (Predictor.vectorizers p !! t) -> exists row, vectorized p t row) /\
  (is_Some (Predictor.vectorizers p !! t) ->
   is_Some (Predictor.models p !! t) -> exists y, answers p t y).

Definition artifacts_run (p : Predictor.t) : Prop :=
  forall t, In t (Predictor.personalities p) -> runs p t.

(** The mapping the loop of [estimate_traits] builds from first outputs
    [f]. *)
Definition scores_of (f : string -> Q) (ps : list string) (acc : gmap string Q)
  : gmap string Q :=
  foldl (fun out t => <[t := round2 (f t)]> out) acc ps.

(** ** Sample artifacts *)

(** A vectorizer with one column, the length of the document. *)
Definition stub_vectorizer : Predictor.pyobj :=
  Predictor.Vectorizer (fun docs =>
    match docs with
    | Some ds => Return (map (fun d => [Some (Z.of_nat (length d) # 1)]) ds)
    | None => Raise (TypeError "'NoneType' object is not iterable")
    end).

(** A model that answers 0.625 for every row. *)
Definition stub_model : Predictor.pyobj :=
  Predictor.Model (fun rows => Return (map (fun _ => 5 # 8) rows)).

Definition is_vectorizer_path (path : string) : bool :=
  bool_decide (path ∈ map Predictor.vectorizer_path Predictor.default_personalities).

(** Every artifact is on the disk. *)
Definition full_disk : Predictor.disk :=
  Predictor.mkdisk (fun _ => true)
    (fun path => Return (if is_vectorizer_path path then stub_vectorizer else stub_model)).

(** The model of trait [stable] is not on the disk. *)
Definition disk_without_stable_model : Predictor.disk :=
  Predictor.mkdisk
    (fun path => negb (String.eqb path (Predictor.model_path "stable")))
    (fun path => Return (if is_vectorizer_path path then stub_vectorizer else stub_model)).

Definition sample_doc : list text := [of_string "love great meh"].
Definition sample_features : list Predictor.cell :=
  [Some (1 # 2); Some (1 # 2); Some (1 # 2); Some 0%Q; Some 0%Q; Some (27 # 2)].

Definition predictor_on (dk : Predictor.disk) : result Predictor.t :=
  Predictor.init dk (Some sample_doc) (Some sample_features)
    Predictor.default_personalities.

(** What [Predictor.__init__] loads from [disk_without_stable_model]. *)
Definition predictor_without_stable_model : Predictor.t :=
  Predictor.mk Predictor.default_personalities (Some sample_doc)
    (Some sample_features)
    (list_to_map [("extroverted", stub_model); ("agreeable", stub_model);
                  ("conscientious", stub_model); ("open", stub_model)]%string)
    (list_to_map [("extroverted", stub_vectorizer); ("stable", stub_vectorizer);
                  ("agreeable", stub_vectorizer);
                  ("conscientious", stub_vectorizer);
                  ("open", stub_vectorizer)]%string).

(** What it loads from [full_disk]. *)
Definition full_predictor : Predictor.t :=
  Predictor.mk Predictor.default_personalities (Some sample_doc)
    (Some sample_features)
    (list_to_map [("extroverted", stub_model); ("stable", stub_model);
                  ("agreeable", stub_model); ("conscientious", stub_model);
                  ("open", stub_model)]%string)
    (list_to_map [("extroverted", stub_vectorizer); ("stable", stub_vectorizer);
                  ("agreeable", stub_vectorizer);
                  ("conscientious", stub_vectorizer);
                  ("open", stub_vectorizer)]%string).

(** ** Occurrences of a literal *)

(** The number of positions of [s] at which [w] starts. *)
Fixpoint occurrences (w s : text) : nat :=
  (if starts_with w s then 1 else 0) +
  match s with
  | [] => 0
  | _ :: s' => occurrences w s'
  end.

(** ** The seven steps of [normalize], as the specification words them *)

Definition non_space (c : char) : bool := negb (is_space c).

(** Replace, from left to right, every occurrence by [tok]. [occ s] is
    the length of the occurrence that starts at the head of [s], if one
    does; [skip] counts the characters of the occurrence being replaced
    that are still to pass. *)
Fixpoint replace_go (occ : text -> option nat) (tok : text) (skip : nat) (s : text)
  : text :=
  match s with
  | [] => []
  | c :: s' =>
      match skip with
      | S j => replace_go occ tok j s'
      | O =>
          match occ s with
          | Some (S j) => tok ++ replace_go occ tok j s'
          | _ => c :: replace_go occ tok 0 s'
          end
      end
  end.

Definition replace_each (occ : text -> option nat) (tok : text) (s : text) : text :=
  replace_go occ tok 0 s.

Definition url_schemes : list text := map of_string ["http"; "https"; "ftp"]%string.

(** A URL at the head of [s]: one of the schemes, [://], and the
    non-whitespace that follows, as far as it goes. *)
Definition url_at (s : text) : option nat :=
  match List.find (fun scheme => starts_with (scheme ++ of_string "://") s)
          url_schemes with
  | Some scheme =>
      let n := length scheme + 3 in
      Some (n + length (take_while non_space (drop n s)))
  | None => None
  end.

(** The literal [w] at the head of [s]. *)
Definition literal_at (w : text) (s : text) : option nat :=
  if starts_with w s then Some (length w) else None.

(** 1. every URL becomes the token [URL] *)
Definition step1_urls (s : text) : text :=
  replace_each url_at (of_string "URL") s.

(** 2. every literal [@username] becomes the token [REP] *)
Definition step2_replies (s : text) : text :=
  replace_each (literal_at (of_string "@username")) (of_string "REP") s.

(** The maximal runs of identical characters of [s], in order, each with
    its length. *)
Fixpoint runs_of (s : text) : list (char * nat) :=
  match s with
  | [] => []
  | c :: s' =>
      match runs_of s' with
      | (d, n) :: rs => if (c =? d)%N then (d, S n) :: rs else (c, 1) :: (d, n) :: rs
      | [] => [(c, 1)]
      end
  end.

Definition unrun (rs : list (char * nat)) : text :=
  flat_map (fun r => repeat (fst r) (snd r)) rs.

(** 3. every run of 4 or more identical characters is collapsed to 3 *)
Definition step3_collapse (s : text) : text :=
  unrun (map (fun r => (fst r, Nat.min (snd r) 3)) (runs_of s)).

(** 4. every character that is not an ASCII letter becomes a space *)
Definition step4_letters (s : text) : text :=
  map (fun c => if is_letter c then c else chr " ") s.

(** 5. lower-case, split on whitespace *)
Definition step5_tokens (s : text) : list text := split (lower s).

(** 6. drop the stopwords *)
Definition step6_drop (stops : list text) (ws : list text) : list text :=
  List.filter (fun w => negb (mem w stops)) ws.

(** 7. join with single spaces *)
Definition step7_join (ws : list text) : text := join (of_string " ") ws.

Definition normalize (stops : list text) (s : text) : text :=
  step7_join (step6_drop stops (step5_tokens (step4_letters
    (step3_collapse (step2_replies (step1_urls s)))))).

(** What [re.sub(r'(.)\1{3,}', r'\1\1\1', _)] does to one run: the dot
    does not match a line feed, so runs of line feeds stay as they are. *)
Definition cap_dot (r : char * nat) : char * nat :=
  (fst r, if is_dot (fst r) then Nat.min (snd r) 3 else snd r).

(** The token that [split] closes when it meets a space. *)
Definition flush (cur : text) : list text :=
  match cur with
  | [] => []
  | _ => [rev cur]
  end.

(** ** Texts that normalization leaves alone *)

(** Some character of [s] is followed by three more copies of itself. *)
Fixpoint has_run4 (s : text) : bool :=
  match s with
  | [] => false
  | c :: s' => starts_with [c; c; c] s' || has_run4 s'
  end.

(** A word as [process_tweet] produces them: lower-case ASCII letters,
    at least one. *)
Definition is_token (w : text) : Prop :=
  w <> [] /\ Forall (fun c => is_lower c = true) w.

(** A lower-case letter or the space. *)
Definition plain (c : char) : Prop := is_lower c = true \/ c = chr " ".

(** * Further vocabulary *)

(** ** The request body *)

(** The ["text"] entries of [post_data], in order, if every object has
    one. *)
Fixpoint text_fields (post_data : list Dataset.tweet_dict) : option (list text) :=
  match post_data with
  | [] => Some []
  | td :: tds =>
      match td !! "text"%string, text_fields tds with
      | Some tw, Some tws => Some (tw :: tws)
      | _, _ => None
      end
  end.

(** The six averages of the tweets [tl], in the order of
    [generate_features]. *)
Definition features_of (unicode_alnum : char -> bool) (tl : list text)
  : list (option Q) :=
  [Some (average (findall_len EMOTICON_REGEX) tl);
   Some (average (findall_len (HASHTAG_REGEX unicode_alnum)) tl);
   Some (average (findall_len EXCLAMATION_REGEX) tl);
   Some (average (findall_len REPLY_REGEX) tl);
   Some (average (findall_len (REPETITION_REGEX unicode_alnum)) tl);
   Some (average (fun tw => length tw) tl)].

(** The document [process] makes of the tweets [tl]. *)
Definition document (stops : list text) (tl : list text) : text :=
  join (of_string " ") (map (cleaned stops) tl).

(** The instance after [generate_features] and [process], in either
    order, on the tweets [tl]. *)
Definition finished (unicode_alnum : char -> bool) (stops : list text)
    (tl : list text) : Dataset.t :=
  Dataset.mk (Some tl)
    (Some (average (findall_len EMOTICON_REGEX) tl))
    (Some (average (findall_len (HASHTAG_REGEX unicode_alnum)) tl))
    (Some (average (findall_len EXCLAMATION_REGEX) tl))
    (Some (average (findall_len REPLY_REGEX) tl))
    (Some (average (findall_len (REPETITION_REGEX unicode_alnum)) tl))
    (Some (average (fun tw => length tw) tl))
    (Some (document stops tl)).

(** ** What the style features count *)

(** The number of maximal runs of [s] that are at least [k] long and
    made of a character that satisfies [p]. *)
Definition count_runs (p : char -> bool) (k : nat) (s : text) : nat :=
  length (List.filter (fun r => p (fst r) && (k <=? snd r)) (runs_of s)).

(** The number of [#] of [s] that a character satisfying [w] follows
    immediately. *)
Fixpoint hashtag_starts (w : char -> bool) (s : text) : nat :=
  match s with
  | [] => 0
  | c :: s' =>
      (if (c =? chr "#")%N && match s' with d :: _ => w d | [] => false end
       then 1 else 0)
      + hashtag_starts w s'
  end.

(** ** The artifacts on the disk *)

(** What [pickle.load] gave, if it gave something. *)
Definition unpickled (r : result Predictor.pyobj) : option Predictor.pyobj :=
  match r with
  | Return o => Some o
  | Raise _ => None
  end.

(** The files of trait [t] that are on the disk unpickle. *)
Definition loads (dk : Predictor.disk) (t : string) : Prop :=
  (Predictor.isfile dk (Predictor.vectorizer_path t) = true ->
   exists o, Predictor.pickle_load dk (Predictor.vectorizer_path t) = Return o) /\
  (Predictor.isfile dk (Predictor.model_path t) = true ->
   exists o, Predictor.pickle_load dk (Predictor.model_path t) = Return o).

(** The entry of key [t] in a dictionary that [Predictor.__init__] fills
    from the files [path t] of the traits [ps]. *)
Definition entry (dk : Predictor.disk) (path : string -> string)
    (ps : list string) (t : string) : option Predictor.pyobj :=
  if bool_decide (t ∈ ps) && Predictor.isfile dk (path t)
  then unpickled (Predictor.pickle_load dk (path t))
  else None.

(** Unpickling the files of trait [t] raises [e]: the vectorizer file
    does, or it loads (or is absent) and the model file does. *)
Definition fails_to_load (dk : Predictor.disk) (t : string) (e : exn) : Prop :=
  (Predictor.isfile dk (Predictor.vectorizer_path t) = true /\
   Predictor.pickle_load dk (Predictor.vectorizer_path t) = Raise e) \/
  ((Predictor.isfile dk (Predictor.vectorizer_path t) = true ->
    exists o, Predictor.pickle_load dk (Predictor.vectorizer_path t) = Return o) /\
   Predictor.isfile dk (Predictor.model_path t) = true /\
   Predictor.pickle_load dk (Predictor.model_path t) = Raise e).

(** A disk on which the model file of [stable] is corrupt. *)
Definition disk_with_corrupt_stable_model : Predictor.disk :=
  Predictor.mkdisk (fun _ => true)
    (fun path =>
       if String.eqb path (Predictor.model_path "stable")
       then Raise (PyErr "UnpicklingError" "invalid load key")
       else Return (if is_vectorizer_path path then stub_vectorizer else stub_model)).

(** A predictor that was given two documents instead of one. *)
Definition two_document_predictor : Predictor.t :=
  Predictor.mk Predictor.default_personalities
    (Some [of_string "love great"; of_string "meh"])
    (Some sample_features)
    (Predictor.models full_predictor) (Predictor.vectorizers full_predictor).

(** ** The endpoint *)

(** The disk serves trait [t] for the documents [docs] and the features
    [fv]: both files exist and unpickle to a vectorizer and a model, the
    vectorizer makes one row of [docs], and the first output of the model
    on that row followed by [fv] is [y]. *)
Definition served (dk : Predictor.disk) (docs : option (list text))
    (fv : list Predictor.cell) (t : string) (y : Q) : Prop :=
  exists transform predict row ys,
    Predictor.isfile dk (Predictor.vectorizer_path t) = true /\
    Predictor.pickle_load dk (Predictor.vectorizer_path t)
      = Return (Predictor.Vectorizer transform) /\
    Predictor.isfile dk (Predictor.model_path t) = true /\
    Predictor.pickle_load dk (Predictor.model_path t)
      = Return (Predictor.Model predict) /\
    transform docs = Return [row] /\
    predict [row ++ fv] = Return (y :: ys).

(** ** The document *)

(** The words [process_tweet] keeps of a tweet. *)
Definition kept_words (stops : list text) (text0 : text) : list text :=
  List.filter (fun w => negb (mem w stops)) (words_of text0).
(** * Properties *)

(** ** Results and loops *)

Lemma bind_inv {A B : Type} (m : result A) (f : A -> result B) (b : B) :
  bind m f = Return b -> exists a, m = Return a /\ f a = Return b.
Proof. destruct m as [a|e]; simpl; [eauto | discriminate]. Qed.

Lemma mapM_total {A B : Type} (f : A -> result B) (g : A -> B) (xs : list A) :
  (forall x, f x = Return (g x)) -> mapM f xs = Return (map g xs).
Proof.
  intros Hf. induction xs as [|x xs IH]; simpl; [reflexivity|].
  rewrite Hf, IH. reflexivity.
Qed.

(** A loop that keeps an invariant returns a state that has it. *)
Lemma foldM_invariant {A B : Type} (P : B -> Prop) (f : B -> A -> result B)
    (xs : list A) (acc acc' : B) :
  (forall b a b', P b -> f b a = Return b' -> P b') ->
  P acc -> foldM f xs acc = Return acc' -> P acc'.
Proof.
  intros Hstep. revert acc. induction xs as [|x xs IH]; simpl; intros acc HP H.
  - congruence.
  - apply bind_inv in H as (b & Hb & H). eauto.
Qed.

(** ** [Dataset.__init__] *)

Lemma init_loop (post_data : list Dataset.tweet_dict) (tweets acc : list text) :
  texts_of post_data tweets ->
  foldM (fun self td =>
           match td !! "text"%string with
           | Some tweet => Dataset.append_tweet self tweet
           | None => Raise (KeyError "text")
           end) post_data (loaded acc)
  = Return (loaded (acc ++ tweets)).
Proof.
  intros H. revert acc. induction H as [|td tw tds tws Htd _ IH]; intros acc; simpl.
  - rewrite app_nil_r. reflexivity.
  - rewrite Htd. simpl. change (Dataset.mk _ _ _ _ _ _ _ _) with (loaded (acc ++ [tw])).
    rewrite IH, <- app_assoc. reflexivity.
Qed.

Lemma init_texts (post_data : list Dataset.tweet_dict) (tweets : list text) :
  texts_of post_data tweets ->
  Dataset.init (Some post_data) = Return (loaded tweets).
Proof. intros H. exact (init_loop post_data tweets [] H). Qed.

(** Whatever the argument, a constructed instance holds a list (never
    [None]) and no feature. *)
Lemma init_fresh (timeline_list : option (list Dataset.tweet_dict)) (d : Dataset.t) :
  Dataset.init timeline_list = Return d -> exists tl, d = loaded tl.
Proof.
  destruct timeline_list as [tds|]; simpl.
  - apply (foldM_invariant (fun d => exists tl, d = loaded tl)).
    + intros b td b' [tl ->]. destruct (td !! "text"%string); [|discriminate].
      simpl. intros [= <-]. eexists. reflexivity.
    + exists []. reflexivity.
  - intros [= <-]. exists []. reflexivity.
Qed.

(** ** The averages *)

Lemma count_avg_nonempty (n : text -> nat) (tl : list text) :
  tl <> [] ->
  Dataset.count_avg n (loaded tl) = Return (Some (average n tl)).
Proof.
  intros H. unfold Dataset.count_avg, average, total. simpl.
  destruct tl as [|tw tl]; [congruence|]. reflexivity.
Qed.

Lemma count_avg_empty (n : text -> nat) :
  Dataset.count_avg n (loaded []) = Raise ZeroDivisionError.
Proof. reflexivity. Qed.

(** ** [process_tweet] and [process] *)

Lemma process_tweet_Return sw (language : string) (stops : list text) (text0 : text) :
  sw language = Return stops ->
  Dataset.process_tweet sw text0 language = Return (cleaned stops text0).
Proof. intros H. unfold Dataset.process_tweet. rewrite H. reflexivity. Qed.

Lemma process_tweet_Raise sw (language : string) (e : exn) (text0 : text) :
  sw language = Raise e ->
  Dataset.process_tweet sw text0 language = Raise e.
Proof. intros H. unfold Dataset.process_tweet. rewrite H. reflexivity. Qed.

(** The document [process] builds from the tweets [tl]. *)
Lemma process_Return sw (stops : list text) (d : Dataset.t) (tl : list text) :
  sw "english"%string = Return stops ->
  Dataset.timeline d = Some tl ->
  let doc := join (of_string " ") (map (cleaned stops) tl) in
  Dataset.process sw d =
  Return (Dataset.mk (Some tl) (Dataset.avg_emoticon_counts d)
            (Dataset.avg_hashtag_counts d) (Dataset.avg_exclamation_counts d)
            (Dataset.avg_reply_counts d) (Dataset.avg_repetition_counts d)
            (Dataset.avg_tweet_len d) (Some doc),
          ([doc],
           [Dataset.avg_emoticon_counts d; Dataset.avg_hashtag_counts d;
            Dataset.avg_exclamation_counts d; Dataset.avg_reply_counts d;
            Dataset.avg_repetition_counts d; Dataset.avg_tweet_len d])).
Proof.
  intros Hsw Htl doc. unfold Dataset.process. rewrite Htl. simpl.
  rewrite (mapM_total _ (cleaned stops)).
  - reflexivity.
  - intros tw. apply process_tweet_Return, Hsw.
Qed.

(** ** Claims about the style features *)

(** C1 (the code departs from the claim). On an empty batch the
    constructor stores the empty list, the [is None] test of every
    [count_avg_*] method passes, and the division by [len(self.timeline)]
    is a division by zero: each of the six methods, and
    [generate_features] with them, raises [ZeroDivisionError]. No
    [EmptyBatchError] is raised and the division is not avoided. *)
Theorem C1_empty_batch_divides_by_zero (unicode_alnum : char -> bool) :
  Dataset.init (Some []) = Return (loaded []) /\
  Dataset.init None = Return (loaded []) /\
  Dataset.count_avg_emoticons (loaded []) = Raise ZeroDivisionError /\
  Dataset.count_avg_hashtags unicode_alnum (loaded []) = Raise ZeroDivisionError /\
  Dataset.count_avg_exclamations (loaded []) = Raise ZeroDivisionError /\
  Dataset.count_avg_replies (loaded []) = Raise ZeroDivisionError /\
  Dataset.count_avg_repetitions unicode_alnum (loaded []) = Raise ZeroDivisionError /\
  Dataset.count_avg_tweet_len (loaded []) = Raise ZeroDivisionError /\
  Dataset.generate_features unicode_alnum (loaded []) = Raise ZeroDivisionError /\
  raised_class (Dataset.count_avg_emoticons (loaded []))
    <> Some "EmptyBatchError"%string.
Proof. repeat split; try reflexivity. discriminate. Qed.

(** C6. On the batch ["I love this!!! :) #great", "meh"] the hashtag,
    exclamation and emoticon averages are 1/2 (0.5) and the length
    average is 27/2 (13.5). *)
Theorem C6_two_post_batch (unicode_alnum : char -> bool) :
  exists d,
    Dataset.init (Some two_posts) = Return d /\
    Dataset.count_avg_hashtags unicode_alnum d = Return (Some (1 # 2)) /\
    Dataset.count_avg_exclamations d = Return (Some (1 # 2)) /\
    Dataset.count_avg_emoticons d = Return (Some (1 # 2)) /\
    Dataset.count_avg_tweet_len d = Return (Some (27 # 2)).
Proof.
  eexists. split; [vm_compute; reflexivity|].
  repeat split; vm_compute; reflexivity.
Qed.

(** C10. [process] on an instance on which [generate_features] was never
    called succeeds (the English stopword list being there) and returns
    the one-document list, the normalized tweets joined by spaces, with
    six [None] in place of the features. *)
Theorem C10_process_before_generate_features
    (sw : string -> result (list text)) (stops : list text)
    (timeline_list : option (list Dataset.tweet_dict)) (d : Dataset.t) :
  sw "english"%string = Return stops ->
  Dataset.init timeline_list = Return d ->
  exists tl d',
    Dataset.timeline d = Some tl /\
    Dataset.process sw d =
    Return (d', ([join (of_string " ") (map (cleaned stops) tl)],
                 [None; None; None; None; None; None])).
Proof.
  intros Hsw Hd. apply init_fresh in Hd as [tl ->].
  rewrite (process_Return sw stops (loaded tl) tl Hsw eq_refl).
  eexists _, _. split; reflexivity.
Qed.

Lemma C10_witness :
  sample_stopwords "english" = Return english_sample /\
  Dataset.init (Some two_posts) =
    Return (loaded (map of_string ["I love this!!! :) #great"; "meh"]%string)) /\
  exists tl d',
    Dataset.timeline
      (loaded (map of_string ["I love this!!! :) #great"; "meh"]%string)) = Some tl /\
    Dataset.process sample_stopwords
      (loaded (map of_string ["I love this!!! :) #great"; "meh"]%string)) =
    Return (d', ([join (of_string " ") (map (cleaned english_sample) tl)],
                 [None; None; None; None; None; None])).
Proof.
  split; [reflexivity|]. split; [vm_compute; reflexivity|].
  apply (C10_process_before_generate_features sample_stopwords english_sample
           (Some two_posts)).
  - reflexivity.
  - vm_compute. reflexivity.
Defined.

Lemma generate_features_nonempty (unicode_alnum : char -> bool) (tl : list text) :
  tl <> [] ->
  Dataset.generate_features unicode_alnum (loaded tl) =
  Return (Dataset.mk (Some tl)
            (Some (average (findall_len EMOTICON_REGEX) tl))
            (Some (average (findall_len (HASHTAG_REGEX unicode_alnum)) tl))
            (Some (average (findall_len EXCLAMATION_REGEX) tl))
            (Some (average (findall_len REPLY_REGEX) tl))
            (Some (average (findall_len (REPETITION_REGEX unicode_alnum)) tl))
            (Some (average (fun tw => length tw) tl))
            None).
Proof.
  intros H. unfold Dataset.generate_features,
    Dataset.count_avg_emoticons, Dataset.count_avg_hashtags,
    Dataset.count_avg_exclamations, Dataset.count_avg_replies,
    Dataset.count_avg_repetitions, Dataset.count_avg_tweet_len.
  rewrite !count_avg_nonempty by exact H. reflexivity.
Qed.

(** C4. For a non-empty batch (the English stopword list being there),
    [generate_features] followed by [process] returns the six averages in
    the order emoticons, hashtags, exclamations, replies, repetitions,
    length: each position holds what the method of that name returns on
    the batch. A second [process] on the same instance returns the same
    vector, and [Respond.build], the sequence the endpoint runs, returns
    it too. *)
Theorem C4_feature_vector_order
    (unicode_alnum : char -> bool) (sw : string -> result (list text))
    (stops : list text) (post_data : list Dataset.tweet_dict) (tweets : list text) :
  texts_of post_data tweets ->
  tweets <> [] ->
  sw "english"%string = Return stops ->
  exists d0 d1 d2 doc e h x r p l,
    Dataset.init (Some post_data) = Return d0 /\
    Dataset.count_avg_emoticons d0 = Return (Some e) /\
    Dataset.count_avg_hashtags unicode_alnum d0 = Return (Some h) /\
    Dataset.count_avg_exclamations d0 = Return (Some x) /\
    Dataset.count_avg_replies d0 = Return (Some r) /\
    Dataset.count_avg_repetitions unicode_alnum d0 = Return (Some p) /\
    Dataset.count_avg_tweet_len d0 = Return (Some l) /\
    Dataset.generate_features unicode_alnum d0 = Return d1 /\
    Dataset.process sw d1 =
      Return (d2, ([doc], [Some e; Some h; Some x; Some r; Some p; Some l])) /\
    Dataset.process sw d2 =
      Return (d2, ([doc], [Some e; Some h; Some x; Some r; Some p; Some l])) /\
    Respond.build unicode_alnum sw post_data =
      Return ([doc], [Some e; Some h; Some x; Some r; Some p; Some l]).
Proof.
  intros Htexts Hne Hsw.
  pose proof (init_texts post_data tweets Htexts) as Hinit.
  pose proof (generate_features_nonempty unicode_alnum tweets Hne) as Hgen.
  set (e := average (findall_len EMOTICON_REGEX) tweets) in *.
  set (h := average (findall_len (HASHTAG_REGEX unicode_alnum)) tweets) in *.
  set (x := average (findall_len EXCLAMATION_REGEX) tweets) in *.
  set (r := average (findall_len REPLY_REGEX) tweets) in *.
  set (p := average (findall_len (REPETITION_REGEX unicode_alnum)) tweets) in *.
  set (l := average (fun tw => length tw) tweets) in *.
  set (doc := join (of_string " ") (map (cleaned stops) tweets)).
  set (d1 := Dataset.mk (Some tweets) (Some e) (Some h) (Some x) (Some r)
               (Some p) (Some l) None) in *.
  set (d2 := Dataset.mk (Some tweets) (Some e) (Some h) (Some x) (Some r)
               (Some p) (Some l) (Some doc)).
  assert (H1 : Dataset.process sw d1 =
               Return (d2, ([doc], [Some e; Some h; Some x; Some r; Some p; Some l]))).
  { exact (process_Return sw stops d1 tweets Hsw eq_refl). }
  assert (H2 : Dataset.process sw d2 =
               Return (d2, ([doc], [Some e; Some h; Some x; Some r; Some p; Some l]))).
  { exact (process_Return sw stops d2 tweets Hsw eq_refl). }
  exists (loaded tweets), d1, d2, doc, e, h, x, r, p, l.
  split; [exact Hinit|].
  do 6 (split; [apply count_avg_nonempty, Hne|]).
  split; [exact Hgen|]. split; [exact H1|]. split; [exact H2|].
  unfold Respond.build. rewrite Hinit. simpl bind. rewrite Hgen. simpl bind.
  rewrite H1. reflexivity.
Qed.

Lemma C4_witness :
  texts_of two_posts (map of_string ["I love this!!! :) #great"; "meh"]%string) /\
  map of_string ["I love this!!! :) #great"; "meh"]%string <> [] /\
  sample_stopwords "english" = Return english_sample /\
  exists doc e h x r p l,
    Respond.build ascii_only sample_stopwords two_posts =
    Return ([doc], [Some e; Some h; Some x; Some r; Some p; Some l]).
Proof.
  assert (Ht : texts_of two_posts
                 (map of_string ["I love this!!! :) #great"; "meh"]%string)).
  { repeat constructor. }
  split; [exact Ht|]. split; [discriminate|]. split; [reflexivity|].
  destruct (C4_feature_vector_order ascii_only sample_stopwords english_sample
              two_posts _ Ht ltac:(discriminate) eq_refl)
    as (d0 & d1 & d2 & doc & e & h & x & r & p & l & H).
  exists doc, e, h, x, r, p, l. apply H.
Defined.

(** ** [Predictor.__init__] *)

(** What the constructor leaves in the two dictionaries: an entry for a
    configured trait exactly when its file is on the disk. *)
Lemma init_loop_loaded (dk : Predictor.disk) (ps : list string)
    (self p : Predictor.t) :
  foldM (fun self personality =>
           let* self1 :=
             if Predictor.isfile dk (Predictor.vectorizer_path personality)
             then let* o := Predictor.pickle_load dk (Predictor.vectorizer_path personality) in
                  Return (Predictor.mk (Predictor.personalities self)
                            (Predictor.timeline self) (Predictor.features self)
                            (Predictor.models self)
                            (<[personality := o]> (Predictor.vectorizers self)))
             else Return self in
           if Predictor.isfile dk (Predictor.model_path personality)
           then let* o := Predictor.pickle_load dk (Predictor.model_path personality) in
                Return (Predictor.mk (Predictor.personalities self1)
                          (Predictor.timeline self1) (Predictor.features self1)
                          (<[personality := o]> (Predictor.models self1))
                          (Predictor.vectorizers self1))
           else Return self1) ps self = Return p ->
  Predictor.personalities p = Predictor.personalities self /\
  Predictor.timeline p = Predictor.timeline self /\
  Predictor.features p = Predictor.features self /\
  forall t,
    (is_Some (Predictor.vectorizers p !! t) <->
     is_Some (Predictor.vectorizers self !! t) \/
     (In t ps /\ Predictor.isfile dk (Predictor.vectorizer_path t) = true)) /\
    (is_Some (Predictor.models p !! t) <->
     is_Some (Predictor.models self !! t) \/
     (In t ps /\ Predictor.isfile dk (Predictor.model_path t) = true)).
Proof.
  revert self. induction ps as [|t0 ps IH]; intros self H.
  - injection H as <-. repeat split; try tauto; intros [?|[[] _]]; assumption.
  - cbn [foldM] in H. apply bind_inv in H as (self2 & Hstep & H).
    apply IH in H as (Hp & Htl & Hf & Hd). clear IH.
    apply bind_inv in Hstep as (self1 & H1 & H2).
    assert (E1 : Predictor.personalities self1 = Predictor.personalities self /\
                 Predictor.timeline self1 = Predictor.timeline self /\
                 Predictor.features self1 = Predictor.features self /\
                 Predictor.models self1 = Predictor.models self /\
                 forall t, is_Some (Predictor.vectorizers self1 !! t) <->
                   is_Some (Predictor.vectorizers self !! t) \/
                   (t = t0 /\ Predictor.isfile dk (Predictor.vectorizer_path t) = true)).
    { destruct (Predictor.isfile dk (Predictor.vectorizer_path t0)) eqn:Ev.
      - apply bind_inv in H1 as (o & _ & [= <-]). simpl.
        repeat split; try reflexivity.
        + destruct (decide (t = t0)) as [->|Hne].
          * intros _. right. auto.
          * rewrite lookup_insert_ne by congruence. auto.
        + intros [Hs|[-> _]].
          * destruct (decide (t = t0)) as [->|Hne];
              [rewrite lookup_insert_eq; eauto
              |rewrite lookup_insert_ne by congruence; exact Hs].
          * rewrite lookup_insert_eq. eauto.
      - injection H1 as <-. repeat split; try reflexivity; [tauto|].
        intros [Hs|[-> Hc]]; [exact Hs | congruence]. }
    destruct E1 as (Ep1 & Et1 & Ef1 & Em1 & Ev1).
    assert (E2 : Predictor.personalities self2 = Predictor.personalities self1 /\
                 Predictor.timeline self2 = Predictor.timeline self1 /\
                 Predictor.features self2 = Predictor.features self1 /\
                 Predictor.vectorizers self2 = Predictor.vectorizers self1 /\
                 forall t, is_Some (Predictor.models self2 !! t) <->
                   is_Some (Predictor.models self1 !! t) \/
                   (t = t0 /\ Predictor.isfile dk (Predictor.model_path t) = true)).
    { destruct (Predictor.isfile dk (Predictor.model_path t0)) eqn:Ev.
      - apply bind_inv in H2 as (o & _ & [= <-]). simpl.
        repeat split; try reflexivity.
        + destruct (decide (t = t0)) as [->|Hne].
          * intros _. right. auto.
          * rewrite lookup_insert_ne by congruence. auto.
        + intros [Hs|[-> _]].
          * destruct (decide (t = t0)) as [->|Hne];
              [rewrite lookup_insert_eq; eauto
              |rewrite lookup_insert_ne by congruence; exact Hs].
          * rewrite lookup_insert_eq. eauto.
      - injection H2 as <-. repeat split; try reflexivity; [tauto|].
        intros [Hs|[-> Hc]]; [exact Hs | congruence]. }
    destruct E2 as (Ep2 & Et2 & Ef2 & Ev2 & Em2).
    split; [congruence|]. split; [congruence|]. split; [congruence|].
    intros t. destruct (Hd t) as [Hdv Hdm].
    rewrite Hdv, Hdm, Ev2, Em2, Ev1, Em1. simpl.
    split; split; intros; intuition (subst; auto).
Qed.

Lemma init_loaded (dk : Predictor.disk) (tl : option (list text))
    (fs : option (list Predictor.cell)) (ps : list string) (p : Predictor.t) :
  Predictor.init dk tl fs ps = Return p ->
  Predictor.personalities p = ps /\
  Predictor.timeline p = tl /\
  Predictor.features p = fs /\
  forall t,
    (is_Some (Predictor.vectorizers p !! t) <->
     In t ps /\ Predictor.isfile dk (Predictor.vectorizer_path t) = true) /\
    (is_Some (Predictor.models p !! t) <->
     In t ps /\ Predictor.isfile dk (Predictor.model_path t) = true).
Proof.
  intros H. apply init_loop_loaded in H as (Hp & Ht & Hf & Hd).
  split; [exact Hp|]. split; [exact Ht|]. split; [exact Hf|].
  intros t. destruct (Hd t) as [Hv Hm]. simpl in Hv, Hm.
  rewrite Hv, Hm, !lookup_empty.
  split; (split; [intros [Hs|Hs]; [destruct Hs; discriminate | exact Hs]
                 | intros Hs; right; exact Hs]).
Qed.

(** A configured trait whose vectorizer or model file is not on the disk
    has no loaded artifact. *)
Lemma init_missing (dk : Predictor.disk) (tl : option (list text))
    (fs : option (list Predictor.cell)) (ps : list string) (p : Predictor.t)
    (t : string) :
  Predictor.init dk tl fs ps = Return p ->
  Predictor.isfile dk (Predictor.vectorizer_path t) = false \/
  Predictor.isfile dk (Predictor.model_path t) = false ->
  missing p t.
Proof.
  intros H Hfile. apply init_loaded in H as (_ & _ & _ & Hd).
  destruct (Hd t) as [Hv Hm]. unfold missing.
  destruct Hfile as [Hf|Hf]; [left|right]; apply eq_None_not_Some;
    intros Hs; [apply Hv in Hs | apply Hm in Hs]; destruct Hs; congruence.
Qed.

(** ** Claims about the predictor *)

Lemma column_stack_row (row : list Predictor.cell) (p : Predictor.t) :
  Predictor.column_stack [row] (Predictor.features_row (Predictor.features p))
  = Return [row ++ feature_cells p].
Proof. unfold feature_cells. destruct (Predictor.features p); reflexivity. Qed.

Lemma load_input_vectorized (p : Predictor.t) (t : string) (row : list Predictor.cell) :
  vectorized p t row ->
  Predictor.load_input p t = Return [row ++ feature_cells p].
Proof.
  intros (transform & Hv & Ht). unfold Predictor.load_input, Predictor.getitem.
  rewrite Hv. simpl. rewrite Ht. simpl. apply column_stack_row.
Qed.

Lemma score_answers (p : Predictor.t) (t : string) (y : Q) :
  answers p t y -> Predictor.score p t = Return (round2 y).
Proof.
  intros (row & predict & ys & Hrow & Hm & Hy). unfold Predictor.score.
  rewrite (load_input_vectorized p t row Hrow). simpl.
  unfold Predictor.getitem. rewrite Hm. simpl. rewrite Hy. reflexivity.
Qed.

(** The lookup that fails first decides the exception; whatever the
    vectorizer does before the model is looked up, no score comes out. *)
Lemma score_missing (p : Predictor.t) (t : string) :
  missing p t ->
  exists e, Predictor.score p t = Raise e /\ (runs p t -> e = KeyError t).
Proof.
  intros Hmiss. unfold Predictor.score.
  destruct (Predictor.vectorizers p !! t) as [o|] eqn:Hv.
  - destruct Hmiss as [Hmiss|Hm]; [congruence|].
    destruct (Predictor.load_input p t) as [m|e] eqn:Hl; simpl.
    + unfold Predictor.getitem. rewrite Hm. simpl. eauto.
    + exists e. split; [reflexivity|]. intros [Hrun _].
      destruct Hrun as [row Hrow]; [rewrite Hv; eauto|].
      rewrite (load_input_vectorized p t row Hrow) in Hl. discriminate.
  - unfold Predictor.load_input, Predictor.getitem. rewrite Hv. simpl. eauto.
Qed.

Lemma score_present (p : Predictor.t) (t : string) :
  ~ missing p t -> runs p t -> exists y, Predictor.score p t = Return y.
Proof.
  intros Hpres [_ Hrun]. unfold missing in Hpres.
  destruct (Predictor.vectorizers p !! t) as [o|] eqn:Hv; [|tauto].
  destruct (Predictor.models p !! t) as [o'|] eqn:Hm; [|tauto].
  destruct Hrun as [y Hy]; [rewrite ?Hv; eauto .. |].
  exists (round2 y). apply score_answers, Hy.
Qed.

Lemma missing_dec (p : Predictor.t) (t : string) : missing p t \/ ~ missing p t.
Proof.
  unfold missing.
  destruct (Predictor.vectorizers p !! t), (Predictor.models p !! t);
    try (left; auto; fail); right; intros [?|?]; discriminate.
Qed.

Lemma estimate_loop_missing (p : Predictor.t) (ps : list string) (t : string)
    (acc : gmap string Q) :
  In t ps -> missing p t ->
  exists e,
    foldM (fun output personality =>
             let* y := Predictor.score p personality in
             Return (<[personality := y]> output)) ps acc = Raise e /\
    ((forall t', In t' ps -> runs p t') ->
     exists t', In t' ps /\ missing p t' /\ e = KeyError t').
Proof.
  revert acc. induction ps as [|t0 ps IH]; intros acc Hin Hmiss; [destruct Hin|].
  simpl foldM.
  destruct (missing_dec p t0) as [H0|H0].
  - destruct (score_missing p t0 H0) as (e & He & Hk). rewrite He. simpl.
    exists e. split; [reflexivity|]. intros Hrun.
    exists t0. rewrite (Hk (Hrun t0 (or_introl eq_refl))). simpl. auto.
  - destruct Hin as [->|Hin]; [contradiction|].
    destruct (Predictor.score p t0) as [y|e] eqn:Hs; simpl.
    + destruct (IH (<[t0 := y]> acc) Hin Hmiss) as (e & He & Hk).
      exists e. split; [exact He|]. intros Hrun.
      destruct Hk as (t' & Ht' & Hm' & ->); [intros; apply Hrun; simpl; auto|].
      exists t'. simpl. auto.
    + exists e. split; [reflexivity|]. intros Hrun.
      destruct (score_present p t0 H0 (Hrun t0 (or_introl eq_refl))) as [y Hy].
      congruence.
Qed.

(** C2 (amended). If some configured trait has no loaded vectorizer or no
    loaded model, [estimate_traits] raises and returns no mapping at all,
    partial or not. The exception is not a [MissingArtifactError]: when
    the artifacts that are loaded run without raising, it is the
    [KeyError] of the dictionary lookup, naming a configured trait that
    lacks an artifact. *)
Theorem C2_missing_artifact_fails (p : Predictor.t) (t : string) :
  In t (Predictor.personalities p) ->
  missing p t ->
  exists e,
    Predictor.estimate_traits p = Raise e /\
    (artifacts_run p ->
     exists t', In t' (Predictor.personalities p) /\ missing p t' /\ e = KeyError t').
Proof.
  intros Hin Hmiss. unfold Predictor.estimate_traits, artifacts_run.
  apply (estimate_loop_missing p (Predictor.personalities p) t ∅ Hin Hmiss).
Qed.

Lemma init_without_stable_model :
  predictor_on disk_without_stable_model = Return predictor_without_stable_model.
Proof. vm_compute. reflexivity. Qed.

Lemma init_full_disk : predictor_on full_disk = Return full_predictor.
Proof. vm_compute. reflexivity. Qed.

Lemma C2_witness :
  In "stable"%string (Predictor.personalities predictor_without_stable_model) /\
  missing predictor_without_stable_model "stable" /\
  exists e,
    Predictor.estimate_traits predictor_without_stable_model = Raise e /\
    (artifacts_run predictor_without_stable_model ->
     exists t', In t' (Predictor.personalities predictor_without_stable_model) /\
                missing predictor_without_stable_model t' /\ e = KeyError t').
Proof.
  assert (Hin : In "stable"%string
                  (Predictor.personalities predictor_without_stable_model)).
  { simpl. auto. }
  assert (Hm : missing predictor_without_stable_model "stable").
  { right. vm_compute. reflexivity. }
  split; [exact Hin|]. split; [exact Hm|].
  exact (C2_missing_artifact_fails predictor_without_stable_model "stable" Hin Hm).
Defined.

(** C2, the claim as stated fails: with the model of [stable] absent
    from the disk the call raises [KeyError], not [MissingArtifactError]. *)
Lemma C2_counterexample :
  missing predictor_without_stable_model "stable" /\
  Predictor.estimate_traits predictor_without_stable_model
    = Raise (KeyError "stable") /\
  raised_class (Predictor.estimate_traits predictor_without_stable_model)
    <> Some "MissingArtifactError"%string.
Proof.
  split; [right; vm_compute; reflexivity|].
  split; [vm_compute; reflexivity|].
  vm_compute. discriminate.
Qed.

(** [round2] is a rounding to two decimals: a whole number of hundredths,
    at most half a hundredth away. *)
Lemma round_half_even_close (q : Q) :
  (Qabs (inject_Z (round_half_even q) - q) <= 1 # 2)%Q.
Proof.
  unfold round_half_even.
  pose proof (Qfloor_le q) as Hlo. pose proof (Qlt_floor q) as Hhi.
  rewrite inject_Z_plus in Hhi. change (inject_Z 1) with 1%Q in Hhi.
  apply Qabs_Qle_condition.
  destruct (Qcompare_spec (q - inject_Z (Qfloor q))%Q (1 # 2)) as [H|H|H].
  - destruct (Z.even (Qfloor q));
      [|rewrite inject_Z_plus; change (inject_Z 1) with 1%Q]; split; lra.
  - split; lra.
  - rewrite inject_Z_plus; change (inject_Z 1) with 1%Q. split; lra.
Qed.

Lemma round2_close (x : Q) : (Qabs (round2 x - x) <= 1 # 200)%Q.
Proof.
  unfold round2. rewrite Qred_correct.
  pose proof (round_half_even_close (x * 100)%Q) as H.
  apply Qabs_Qle_condition in H. apply Qabs_Qle_condition.
  set (z := round_half_even (x * 100)%Q) in *.
  assert (Hz : ((z # 100) * 100 == inject_Z z)%Q).
  { unfold Qeq, Qmult, inject_Z. simpl. lia. }
  set (t := z # 100) in *. clearbody t.
  split; lra.
Qed.

Lemma scores_of_lookup (f : string -> Q) (ps : list string) (acc : gmap string Q)
    (t : string) :
  scores_of f ps acc !! t =
  if bool_decide (t ∈ ps) then Some (round2 (f t)) else acc !! t.
Proof.
  revert acc. induction ps as [|t0 ps IH]; intros acc; [reflexivity|].
  unfold scores_of in *. simpl. rewrite IH.
  destruct (decide (t ∈ ps)) as [Hin|Hnin].
  - rewrite !bool_decide_eq_true_2; [reflexivity | by right | done].
  - rewrite (bool_decide_eq_false_2 _ Hnin).
    destruct (decide (t = t0)) as [->|Hne].
    + rewrite lookup_insert_eq, bool_decide_eq_true_2; [reflexivity | by left].
    + rewrite lookup_insert_ne by congruence.
      rewrite bool_decide_eq_false_2; [reflexivity|].
      intros [->|Hc]%elem_of_cons; tauto.
Qed.

Lemma estimate_loop_answers (p : Predictor.t) (f : string -> Q) (ps : list string)
    (acc : gmap string Q) :
  (forall t, In t ps -> answers p t (f t)) ->
  foldM (fun output personality =>
           let* y := Predictor.score p personality in
           Return (<[personality := y]> output)) ps acc
  = Return (scores_of f ps acc).
Proof.
  revert acc. induction ps as [|t0 ps IH]; intros acc H; [reflexivity|].
  simpl foldM. rewrite (score_answers p t0 (f t0)) by (apply H; simpl; auto).
  simpl. rewrite IH by (intros; apply H; simpl; auto). reflexivity.
Qed.

(** C5. When every configured trait has a loaded vectorizer and model
    that answer ([f t] being the first output of the model of [t] on its
    input row), [estimate_traits] returns a mapping whose keys are
    exactly the configured traits and whose value at [t] is [f t] rounded
    to two decimals: a whole number of hundredths within half a
    hundredth of [f t]. *)
Theorem C5_estimate_traits_scores (p : Predictor.t) (f : string -> Q) :
  (forall t, In t (Predictor.personalities p) -> answers p t (f t)) ->
  exists out : gmap string Q,
    Predictor.estimate_traits p = Return out /\
    dom out = list_to_set (Predictor.personalities p) /\
    (forall t, In t (Predictor.personalities p) ->
       out !! t = Some (round2 (f t))) /\
    (forall t v, out !! t = Some v ->
       (exists k : Z, v = Qred (k # 100)) /\ (Qabs (v - f t) <= 1 # 200)%Q).
Proof.
  intros H. exists (scores_of f (Predictor.personalities p) ∅).
  split; [apply estimate_loop_answers, H|].
  assert (Hl : forall t, In t (Predictor.personalities p) ->
            scores_of f (Predictor.personalities p) ∅ !! t = Some (round2 (f t))).
  { intros t Hin. rewrite scores_of_lookup, bool_decide_eq_true_2; [reflexivity|].
    by apply list_elem_of_In. }
  split; [|split; [exact Hl|]].
  - apply set_eq. intros t. rewrite elem_of_dom, elem_of_list_to_set, scores_of_lookup.
    destruct (decide (t ∈ Predictor.personalities p)) as [Hin|Hnin].
    + rewrite bool_decide_eq_true_2 by done. split; eauto.
    + rewrite bool_decide_eq_false_2, lookup_empty by done.
      split; [intros [? ?]; discriminate | done].
  - intros t v. rewrite scores_of_lookup.
    destruct (bool_decide (t ∈ Predictor.personalities p)); [|by rewrite lookup_empty].
    intros [= <-]. split; [eexists; reflexivity | apply round2_close].
Qed.

Lemma full_predictor_answers (t : string) :
  In t (Predictor.personalities full_predictor) -> answers full_predictor t (5 # 8).
Proof.
  intros Hin.
  exists [Some (14 # 1)], (fun rows => Return (map (fun _ => 5 # 8) rows)), [].
  simpl in Hin.
  repeat (destruct Hin as [<-|Hin];
    [split; [eexists; split; vm_compute; reflexivity|];
     split; vm_compute; reflexivity|]).
  destruct Hin.
Qed.

Lemma C5_witness :
  (forall t, In t (Predictor.personalities full_predictor) ->
     answers full_predictor t (5 # 8)) /\
  exists out : gmap string Q,
    Predictor.estimate_traits full_predictor = Return out /\
    dom out = list_to_set (Predictor.personalities full_predictor) /\
    (forall t, In t (Predictor.personalities full_predictor) ->
       out !! t = Some (round2 (5 # 8))) /\
    (forall t v, out !! t = Some v ->
       (exists k : Z, v = Qred (k # 100)) /\ (Qabs (v - (5 # 8)) <= 1 # 200)%Q).
Proof.
  split; [exact full_predictor_answers|].
  exact (C5_estimate_traits_scores full_predictor (fun _ => 5 # 8)
           full_predictor_answers).
Defined.

(** ** Claims about [process_tweet] and its stopwords *)

(** C9 (amended). If the corpus reader has no stopword list for the
    language and raises [e], [process_tweet] raises that same [e] to its
    caller, whatever the text: the failure is surfaced, with the class
    the reader gave it and no [ConfigurationError] of the program's own. *)
Theorem C9_unknown_language_propagates
    (sw : string -> result (list text)) (language : string) (e : exn)
    (text0 : text) :
  sw language = Raise e ->
  Dataset.process_tweet sw text0 language = Raise e.
Proof. apply process_tweet_Raise. Qed.

Lemma C9_witness :
  sample_stopwords "klingon" = Raise (PyErr "OSError" "klingon") /\
  Dataset.process_tweet sample_stopwords (of_string "nuqneH") "klingon"
  = Raise (PyErr "OSError" "klingon").
Proof.
  split; [reflexivity|].
  apply (C9_unknown_language_propagates sample_stopwords "klingon"
           (PyErr "OSError" "klingon") (of_string "nuqneH")).
  reflexivity.
Defined.

(** C9, the claim as stated fails: for a language the reader has no list
    for, what the caller sees is the reader's [OSError]. *)
Lemma C9_counterexample :
  raised_class (Dataset.process_tweet sample_stopwords (of_string "nuqneH") "klingon")
    = Some "OSError"%string /\
  raised_class (Dataset.process_tweet sample_stopwords (of_string "nuqneH") "klingon")
    <> Some "ConfigurationError"%string.
Proof. split; [reflexivity | discriminate]. Qed.

(** ** The matcher on the constructs the patterns are made of *)

Lemma starts_with_app (a b s : text) :
  starts_with (a ++ b) s = starts_with a s && starts_with b (drop (length a) s).
Proof.
  revert s. induction a as [|x a IH]; intros s; simpl; [reflexivity|].
  destruct s as [|y s]; simpl; [reflexivity|].
  rewrite IH. destruct (x =? y)%N; reflexivity.
Qed.

Lemma starts_with_split (w s : text) :
  starts_with w s = true -> s = w ++ drop (length w) s.
Proof.
  revert s. induction w as [|x w IH]; intros s; simpl; [reflexivity|].
  destruct s as [|y s]; [discriminate|].
  destruct (N.eqb_spec x y) as [->|]; [|discriminate]. simpl.
  intros H. f_equal. apply IH, H.
Qed.

Lemma starts_with_length (w s : text) :
  starts_with w s = true -> length w <= length s.
Proof.
  intros H. rewrite (starts_with_split w s H), length_app. lia.
Qed.

Lemma rx_lits (w s : text) (g : option text) (k : cont) :
  rx (lits w) s g k = if starts_with w s then k (drop (length w) s) g else None.
Proof.
  revert s. induction w as [|c w IH]; intros s.
  - simpl. destruct (length s); reflexivity.
  - destruct w as [|c' w].
    + simpl. destruct s as [|x s]; [reflexivity|].
      rewrite (N.eqb_sym x c). destruct (c =? x)%N; reflexivity.
    + change (lits (c :: c' :: w)) with (Cat (Lit c) (lits (c' :: w))).
      change (starts_with (c :: c' :: w) s)
        with (match s with
              | [] => false
              | b :: s' => (c =? b)%N && starts_with (c' :: w) s'
              end).
      simpl rx. destruct s as [|x s]; [reflexivity|].
      rewrite (N.eqb_sym x c). destruct (c =? x)%N; [|reflexivity].
      rewrite IH. reflexivity.
Qed.

(** [c?] followed by [k]: with the character first, without it next. *)
Lemma rx_opt_lit (c : char) (s : text) (g : option text) (k : cont) :
  rx (Opt (Lit c)) s g k =
  match s with
  | x :: s' => if (x =? c)%N then or_else (k s' g) (k s g) else k s g
  | [] => k [] g
  end.
Proof.
  destruct s as [|x s]; [reflexivity|].
  simpl. destruct (x =? c)%N; [|reflexivity].
  replace (length s <? S (length s)) with true by (symmetry; apply Nat.ltb_lt; lia).
  destruct (length s); reflexivity.
Qed.

(** A greedy repeat of a character class at the end of a pattern takes
    the whole run. *)
Lemma rep_cls_final (p : char -> bool) (lo fuel i : nat) (s : text) (g : option text) :
  length s <= fuel ->
  rep_loop (rx (Cls p)) lo None (fun s1 g1 => Some (s1, g1)) fuel i s g =
  if lo <=? i + length (take_while p s) then Some (drop_while p s, g) else None.
Proof.
  revert i s. induction fuel as [|fuel IH]; intros i s Hf.
  - destruct s; [|simpl in Hf; lia]. simpl. rewrite Nat.add_0_r. reflexivity.
  - destruct s as [|x s].
    + simpl. rewrite Nat.add_0_r. destruct (lo <=? i); reflexivity.
    + simpl in Hf. simpl. destruct (p x); simpl.
      * replace (length s <? S (length s)) with true
          by (symmetry; apply Nat.ltb_lt; lia).
        rewrite IH by lia. rewrite <- Nat.add_succ_comm.
        destruct (lo <=? S i + length (take_while p s)) eqn:E; [reflexivity|].
        simpl. apply Nat.leb_gt in E.
        destruct (lo <=? i) eqn:E'; [apply Nat.leb_le in E'; lia | reflexivity].
      * rewrite Nat.add_0_r. reflexivity.
Qed.

(** The same for a repeat of the back-reference to a one-character
    group. *)
Lemma rep_ref_final (c : char) (lo fuel i : nat) (s : text) :
  length s <= fuel ->
  rep_loop (rx Ref) lo None (fun s1 g1 => Some (s1, g1)) fuel i s (Some [c]) =
  if lo <=? i + length (take_while (N.eqb c) s)
  then Some (drop_while (N.eqb c) s, Some [c]) else None.
Proof.
  revert i s. induction fuel as [|fuel IH]; intros i s Hf.
  - destruct s; [|simpl in Hf; lia]. simpl. rewrite Nat.add_0_r. reflexivity.
  - destruct s as [|x s].
    + simpl. rewrite Nat.add_0_r. destruct (lo <=? i); reflexivity.
    + simpl in Hf. simpl. destruct (c =? x)%N; simpl.
      * rewrite drop_0.
        replace (length s <? S (length s)) with true
          by (symmetry; apply Nat.ltb_lt; lia).
        rewrite IH by lia. rewrite <- Nat.add_succ_comm.
        destruct (lo <=? S i + length (take_while (N.eqb c) s)) eqn:E; [reflexivity|].
        simpl. apply Nat.leb_gt in E.
        destruct (lo <=? i) eqn:E'; [apply Nat.leb_le in E'; lia | reflexivity].
      * rewrite Nat.add_0_r. reflexivity.
Qed.

Lemma take_drop_while (p : char -> bool) (s : text) :
  take_while p s ++ drop_while p s = s.
Proof.
  induction s as [|x s IH]; simpl; [reflexivity|].
  destruct (p x); simpl; [rewrite IH|]; reflexivity.
Qed.

Lemma drop_take_while (p : char -> bool) (s : text) :
  drop (length (take_while p s)) s = drop_while p s.
Proof.
  induction s as [|x s IH]; simpl; [reflexivity|].
  destruct (p x); simpl; [exact IH | reflexivity].
Qed.

Lemma length_drop_while (p : char -> bool) (s : text) :
  length s = length (take_while p s) + length (drop_while p s).
Proof. rewrite <- length_app, take_drop_while. reflexivity. Qed.

(** ** [findall] and [sub] past the characters of a match *)

Lemma count_go_skip (r : regex) (j : nat) (s : text) :
  j <= length s -> count_go r j s = count_go r 0 (drop j s).
Proof.
  revert s. induction j as [|j IH]; intros s Hj; [rewrite drop_0; reflexivity|].
  destruct s as [|x s]; simpl in Hj; [lia|].
  simpl. apply IH. lia.
Qed.

Lemma sub_go_skip (r : regex) (tmpl : list titem) (j : nat) (s : text) :
  j <= length s -> sub_go r tmpl j s = sub_go r tmpl 0 (drop j s).
Proof.
  revert s. induction j as [|j IH]; intros s Hj; [rewrite drop_0; reflexivity|].
  destruct s as [|x s]; simpl in Hj; [lia|].
  simpl. apply IH. lia.
Qed.

(** ** The reply count *)

Lemma match_at_reply (s : text) :
  match_at REPLY_REGEX s =
  if starts_with (of_string "@username") s then Some (drop 9 s, None) else None.
Proof. unfold match_at, REPLY_REGEX, lit. rewrite rx_lits. reflexivity. Qed.

Lemma count_reply_occurrences (n : nat) (s : text) :
  length s <= n ->
  count_go REPLY_REGEX 0 s = occurrences (of_string "@username") s.
Proof.
  revert s. induction n as [|n IH]; intros s Hn.
  - destruct s; [reflexivity | simpl in Hn; lia].
  - destruct s as [|x s]; [reflexivity|].
    simpl in Hn.
    cbn [count_go occurrences]. rewrite match_at_reply.
    destruct (starts_with (of_string "@username") (x :: s)) eqn:E.
    + pose proof (starts_with_length _ _ E) as Hlen.
      apply starts_with_split in E.
      change (length (of_string "@username")) with 9 in *.
      simpl in Hlen.
      rewrite length_drop. simpl length.
      replace (pred (S (length s) - (S (length s) - 9))) with 8 by lia.
      rewrite count_go_skip by lia.
      remember (drop 8 s) as rest eqn:Hrest.
      change (drop 9 (x :: s)) with (drop 8 s) in E. rewrite <- Hrest in E.
      vm_compute in E. injection E as -> ->.
      clear Hrest Hlen. simpl in Hn.
      cbn -[of_string]. f_equal.
      rewrite <- (IH rest) by lia. reflexivity.
    + rewrite (IH s) by lia. reflexivity.
Qed.

Lemma count_avg_ext (n n' : text -> nat) (d : Dataset.t) :
  (forall tw, n tw = n' tw) -> Dataset.count_avg n d = Dataset.count_avg n' d.
Proof.
  intros H. unfold Dataset.count_avg. destruct (Dataset.timeline d) as [tl|]; [|reflexivity].
  replace (fold_left (fun count tweet => count + n tweet) tl 0)
    with (fold_left (fun count tweet => count + n' tweet) tl 0); [reflexivity|].
  generalize 0. induction tl as [|tw tl IH]; intros a; simpl; [reflexivity|].
  rewrite H. apply IH.
Qed.

(** C8. The number of replies [count_avg_replies] counts in a tweet is
    the number of positions at which the literal [@username] starts, so
    the average it returns is the average of those numbers; a mention of
    any other name counts for nothing. *)
Theorem C8_reply_count_is_literal_username (tweet : text) (d : Dataset.t) :
  findall_len REPLY_REGEX tweet = occurrences (of_string "@username") tweet /\
  Dataset.count_avg_replies d =
    Dataset.count_avg (occurrences (of_string "@username")) d /\
  findall_len REPLY_REGEX (of_string "@alice @user_name @Username @usernam") = 0.
Proof.
  split; [exact (count_reply_occurrences (length tweet) tweet (le_n _))|].
  split; [|vm_compute; reflexivity].
  apply count_avg_ext. intros tw.
  exact (count_reply_occurrences (length tw) tw (le_n _)).
Qed.

(** ** The substitutions of [process_tweet], step by step *)

(** [re.sub] with a pattern whose matches are the occurrences [occ] and
    a template that always expands to [tok]. *)
Lemma sub_go_replace (r : regex) (tmpl : list titem) (occ : text -> option nat)
    (tok : text) :
  (forall s, match match_at r s with
             | Some (rest, g) =>
                 occ s = Some (length s - length rest) /\
                 0 < length s - length rest /\ expand tmpl g = tok
             | None => occ s = None
             end) ->
  match_at r [] = None ->
  forall j s, sub_go r tmpl j s = replace_go occ tok j s.
Proof.
  intros Hocc Hnil j s. revert j.
  induction s as [|c s IH]; intros j.
  - simpl. rewrite Hnil. destruct j; reflexivity.
  - destruct j as [|j]; [|simpl; apply IH].
    cbn [sub_go replace_go]. specialize (Hocc (c :: s)).
    destruct (match_at r (c :: s)) as [[rest g]|].
    + destruct Hocc as (-> & Hpos & ->).
      destruct (length (c :: s) - length rest); [lia|]. rewrite IH. reflexivity.
    + rewrite Hocc, IH. reflexivity.
Qed.

Lemma length_after_run (p : char -> bool) (n : nat) (s : text) :
  n <= length s ->
  length s - length (drop_while p (drop n s)) =
  n + length (take_while p (drop n s)).
Proof.
  intros H. pose proof (length_drop_while p (drop n s)) as E.
  rewrite length_drop in E. lia.
Qed.

Lemma drop_past (n : nat) (s : text) (x : char) (s' : text) (m : nat) :
  drop n s = x :: s' -> drop (S n + m) s = drop m s'.
Proof.
  revert s. induction n as [|n IH]; intros s H.
  - rewrite drop_0 in H. subst s. reflexivity.
  - destruct s as [|y s]; [discriminate|]. simpl in *. apply IH, H.
Qed.

Lemma rx_rep (lo : nat) (hi : option nat) (a : regex) (s : text)
    (g : option text) (k : cont) :
  rx (Rep lo hi a) s g k = rep_loop (rx a) lo hi k (length s) 0 s g.
Proof. reflexivity. Qed.

Lemma url_tail (s1 : text) (g : option text) :
  rx (lit "://") s1 g
    (fun s0 g1 => rx (Star (Cls (fun c => negb (is_space c)))) s0 g1
                    (fun s2 g0 => Some (s2, g0)))
  = if starts_with (of_string "://") s1
    then Some (drop_while non_space (drop 3 s1), g) else None.
Proof.
  unfold lit. rewrite rx_lits.
  destruct (starts_with (of_string "://") s1); [|reflexivity].
  change (length (of_string "://")) with 3.
  unfold Star. rewrite rx_rep, rep_cls_final by lia. reflexivity.
Qed.

Lemma match_at_url (s : text) :
  match match_at URL_REGEX s with
  | Some (rest, g) =>
      url_at s = Some (length s - length rest) /\ 0 < length s - length rest
  | None => url_at s = None
  end.
Proof.
  unfold match_at, URL_REGEX. cbn [rx]. unfold lit at 1 3.
  rewrite !rx_lits, rx_opt_lit.
  change (length (of_string "http")) with 4.
  change (length (of_string "ftp")) with 3.
  unfold url_at, url_schemes. cbn [map List.find].
  change (of_string "https" ++ of_string "://")
    with (of_string "http" ++ [chr "s"] ++ of_string "://").
  rewrite !starts_with_app.
  change (length (of_string "http")) with 4.
  change (length (of_string "ftp")) with 3.
  change (length [chr "s"]) with 1.
  rewrite !url_tail.
  destruct (starts_with (of_string "http") s) eqn:Eh.
  - assert (Ef : starts_with (of_string "ftp") s = false).
    { destruct s as [|c s]; [reflexivity|].
      change (of_string "http") with (chr "h" :: of_string "ttp") in Eh.
      change (of_string "ftp") with (chr "f" :: of_string "tp").
      cbn [starts_with] in Eh |- *.
      destruct (N.eqb_spec (chr "h") c) as [<-|]; [reflexivity | discriminate]. }
    pose proof (starts_with_length _ _ Eh) as Hlen.
    change (length (of_string "http")) with 4 in Hlen.
    rewrite Ef. cbn [andb or_else].
    destruct (drop 4 s) as [|x s'] eqn:Ed.
    + reflexivity.
    + assert (Hs' : length s = 5 + length s').
      { pose proof (f_equal length Ed) as E. rewrite length_drop in E.
        simpl in E. lia. }
      destruct (N.eqb_spec x (chr "s")) as [->|Hx].
      * rewrite ?url_tail.
        change (starts_with (of_string "://") (chr "s" :: s')) with false.
        change (starts_with [chr "s"] (chr "s" :: s')) with true.
        cbn [andb drop]. rewrite drop_0.
        destruct (starts_with (of_string "://") s') eqn:E3; [|reflexivity].
        cbn [or_else].
        pose proof (starts_with_length _ _ E3) as Hlen3.
        change (length (of_string "://")) with 3 in Hlen3.
        change (length (of_string "https") + 3) with (S 4 + 3).
        rewrite (drop_past 4 s _ s' 3 Ed).
        pose proof (length_after_run non_space 3 s' Hlen3) as E.
        split; [f_equal|]; lia.
      * assert (E1 : starts_with [chr "s"] (x :: s') = false).
        { cbn [starts_with]. rewrite N.eqb_sym.
          destruct (N.eqb_spec x (chr "s")); [contradiction | reflexivity]. }
        rewrite E1, ?url_tail. cbn [andb or_else].
        destruct (starts_with (of_string "://") (x :: s')) eqn:E3; [|reflexivity].
        pose proof (starts_with_length _ _ E3) as Hlen3.
        change (length (of_string "://")) with 3 in Hlen3. cbn [length] in Hlen3.
        change (length (of_string "http") + 3) with 7.
        replace (drop 7 s) with (drop 3 (x :: s'))
          by (rewrite <- Ed, drop_drop; reflexivity).
        pose proof (length_after_run non_space 3 (x :: s') Hlen3) as E.
        cbn [length] in E.
        split; [f_equal|]; lia.
  - cbn [andb or_else]. rewrite ?url_tail.
    destruct (starts_with (of_string "ftp") s) eqn:Ef; [|reflexivity].
    cbn [andb].
    destruct (starts_with (of_string "://") (drop 3 s)) eqn:E3; [|reflexivity].
    pose proof (starts_with_length _ _ Ef) as Hlen.
    pose proof (starts_with_length _ _ E3) as Hlen3.
    change (length (of_string "ftp")) with 3 in Hlen.
    change (length (of_string "://")) with 3 in Hlen3.
    rewrite length_drop in Hlen3.
    change (length (of_string "ftp") + 3) with (3 + 3).
    rewrite drop_drop.
    pose proof (length_after_run non_space (3 + 3) s ltac:(lia)) as E.
    split; [f_equal|]; lia.
Qed.

Lemma sub_urls (s : text) : re_sub URL_REGEX URL_TAG s = step1_urls s.
Proof.
  unfold re_sub, step1_urls, replace_each.
  apply sub_go_replace; [|reflexivity].
  intros x. pose proof (match_at_url x) as H.
  destruct (match_at URL_REGEX x) as [[rest g]|]; [|exact H].
  destruct H as [H1 H2]. repeat split; assumption.
Qed.

Lemma sub_replies (s : text) : re_sub REPLY_REGEX REPLY_TAG s = step2_replies s.
Proof.
  unfold re_sub, step2_replies, replace_each.
  apply sub_go_replace; [|reflexivity].
  intros x. rewrite match_at_reply. unfold literal_at.
  destruct (starts_with (of_string "@username") x) eqn:E; [|reflexivity].
  apply starts_with_length in E. change (length (of_string "@username")) with 9 in *.
  rewrite length_drop. repeat split; [f_equal|]; lia.
Qed.

Lemma sub_nonletters (s : text) :
  re_sub NONLETTER_REGEX (tlit " ") s = step4_letters s.
Proof.
  unfold re_sub, step4_letters.
  induction s as [|c s IH]; [reflexivity|].
  cbn [sub_go map]. unfold match_at, NONLETTER_REGEX. cbn [rx].
  destruct (is_letter c); cbn [negb].
  - f_equal. exact IH.
  - replace (length (c :: s) - length s) with 1 by (simpl; lia).
    cbn -[sub_go]. f_equal. exact IH.
Qed.

(** ** The third substitution, run by run *)

Lemma match_at_trim (c : char) (s : text) :
  match_at TRIM_REGEX (c :: s) =
  if is_dot c && (3 <=? length (take_while (N.eqb c) s))
  then Some (drop_while (N.eqb c) s, Some [c]) else None.
Proof.
  change (match_at TRIM_REGEX (c :: s))
    with (if is_dot c
          then rep_loop (rx Ref) 3 None (fun s1 g1 => Some (s1, g1)) (length s) 0 s
                 (Some (take (length (c :: s) - length s) (c :: s)))
          else None).
  destruct (is_dot c); [|reflexivity].
  replace (length (c :: s) - length s) with 1 by (simpl; lia).
  cbn [take andb]. rewrite rep_ref_final by lia. reflexivity.
Qed.

Lemma take_while_eq_repeat (c : char) (s : text) :
  take_while (N.eqb c) s = repeat c (length (take_while (N.eqb c) s)).
Proof.
  induction s as [|x s IH]; [reflexivity|]. simpl.
  destruct (N.eqb_spec c x) as [<-|]; [|reflexivity].
  simpl. f_equal. exact IH.
Qed.

Lemma take_while_drop_while (p : char -> bool) (s : text) :
  take_while p (drop_while p s) = [].
Proof.
  induction s as [|x s IH]; [reflexivity|]. simpl.
  destruct (p x) eqn:E; [exact IH|]. simpl. rewrite E. reflexivity.
Qed.

Lemma take_while_repeat_app (c : char) (k : nat) (rest : text) :
  take_while (N.eqb c) rest = [] ->
  length (take_while (N.eqb c) (repeat c k ++ rest)) = k.
Proof.
  intros H. induction k as [|k IH]; simpl.
  - rewrite H. reflexivity.
  - rewrite N.eqb_refl. simpl. f_equal. exact IH.
Qed.

(** The decomposition of a non-empty text into its first run and the
    rest. *)
Lemma first_run (c : char) (s : text) :
  c :: s = repeat c (S (length (take_while (N.eqb c) s))) ++ drop_while (N.eqb c) s.
Proof.
  simpl. f_equal. rewrite <- take_while_eq_repeat, take_drop_while. reflexivity.
Qed.

Lemma runs_of_cons (c : char) (s : text) :
  runs_of (c :: s) =
  (c, S (length (take_while (N.eqb c) s))) :: runs_of (drop_while (N.eqb c) s).
Proof.
  revert c. induction s as [|x s IH]; intros c; [reflexivity|].
  change (runs_of (c :: x :: s))
    with (match runs_of (x :: s) with
          | (d, n) :: rs => if (c =? d)%N then (d, S n) :: rs else (c, 1) :: (d, n) :: rs
          | [] => [(c, 1)]
          end).
  rewrite (IH x). cbn [take_while drop_while].
  destruct (N.eqb_spec c x) as [<-|Hne]; [reflexivity|].
  rewrite (IH x). reflexivity.
Qed.

Lemma unrun_cons (r : char * nat) (rs : list (char * nat)) :
  unrun (r :: rs) = repeat (fst r) (snd r) ++ unrun rs.
Proof. reflexivity. Qed.

(** A run that the pattern does not match is copied. *)
Lemma sub_trim_short (c : char) (k : nat) (rest : text) :
  is_dot c = false \/ k <= 3 ->
  take_while (N.eqb c) rest = [] ->
  sub_go TRIM_REGEX TRIM_TAG 0 (repeat c k ++ rest)
  = repeat c k ++ sub_go TRIM_REGEX TRIM_TAG 0 rest.
Proof.
  intros Hk Hrest. induction k as [|k IH]; [reflexivity|].
  cbn [repeat app sub_go]. rewrite match_at_trim.
  rewrite (take_while_repeat_app c k rest Hrest).
  replace (is_dot c && (3 <=? k)) with false.
  - f_equal. apply IH. destruct Hk; [auto | right; lia].
  - destruct Hk as [->|Hk]; [reflexivity|].
    replace (3 <=? k) with false by (symmetry; apply Nat.leb_gt; lia).
    destruct (is_dot c); reflexivity.
Qed.

Lemma sub_trim_runs (n : nat) (s : text) :
  length s <= n ->
  sub_go TRIM_REGEX TRIM_TAG 0 s = unrun (map cap_dot (runs_of s)).
Proof.
  revert s. induction n as [|n IH]; intros s Hn.
  - destruct s; [reflexivity | simpl in Hn; lia].
  - destruct s as [|c s]; [reflexivity|]. simpl in Hn.
    rewrite runs_of_cons. cbn [map]. rewrite unrun_cons. cbn [cap_dot fst snd].
    pose proof (length_drop_while (N.eqb c) s) as Hlen.
    rewrite <- (IH (drop_while (N.eqb c) s)) by lia.
    destruct (is_dot c && (3 <=? length (take_while (N.eqb c) s))) eqn:E.
    + cbn [sub_go]. rewrite match_at_trim, E.
      apply andb_true_iff in E as [Hd E]. apply Nat.leb_le in E. rewrite Hd.
      replace (length (c :: s) - length (drop_while (N.eqb c) s))
        with (S (length (take_while (N.eqb c) s))) by (simpl; lia).
      rewrite sub_go_skip by lia. rewrite drop_take_while.
      replace (Nat.min (S (length (take_while (N.eqb c) s))) 3) with 3 by lia.
      reflexivity.
    + rewrite (first_run c s) at 1.
      assert (Hk : is_dot c = false \/ S (length (take_while (N.eqb c) s)) <= 3).
      { apply andb_false_iff in E as [E|E]; [auto|].
        apply Nat.leb_gt in E. right. lia. }
      rewrite (sub_trim_short c _ _ Hk (take_while_drop_while _ _)).
      f_equal. destruct Hk as [->|Hk]; [reflexivity|].
      destruct (is_dot c); [|reflexivity]. f_equal. lia.
Qed.

Lemma sub_trim (s : text) :
  re_sub TRIM_REGEX TRIM_TAG s = unrun (map cap_dot (runs_of s)).
Proof. exact (sub_trim_runs (length s) s (le_n _)). Qed.

(** ** Runs of line feeds do not reach the words *)

Lemma split_go_app_congr (a x y : text) :
  (forall cur, split_go cur x = split_go cur y) ->
  forall cur, split_go cur (a ++ x) = split_go cur (a ++ y).
Proof.
  intros H. induction a as [|c a IH]; intros cur; [apply H|].
  simpl. destruct (is_space c); [destruct cur|]; rewrite ?IH; reflexivity.
Qed.

Lemma split_go_spaces (c : char) (m : nat) (cur x : text) :
  is_space c = true -> 1 <= m ->
  split_go cur (repeat c m ++ x) = flush cur ++ split_go [] x.
Proof.
  intros Hc Hm. revert cur. induction m as [|m IH]; intros cur; [lia|].
  cbn [repeat app split_go]. rewrite Hc.
  destruct m as [|m].
  - destruct cur; reflexivity.
  - rewrite (IH ltac:(lia) []). destruct cur; reflexivity.
Qed.

Lemma lower_letters_app (a b : text) :
  lower (step4_letters (a ++ b)) = lower (step4_letters a) ++ lower (step4_letters b).
Proof. unfold lower, step4_letters. rewrite !map_app. reflexivity. Qed.

Lemma lower_letters_repeat (c : char) (m : nat) :
  lower (step4_letters (repeat c m)) =
  repeat (lower_char (if is_letter c then c else chr " ")) m.
Proof.
  unfold lower, step4_letters. induction m as [|m IH]; [reflexivity|].
  simpl. f_equal. exact IH.
Qed.

Lemma words_of_runs (rs : list (char * nat)) (cur : text) :
  split_go cur (lower (step4_letters (unrun (map cap_dot rs)))) =
  split_go cur (lower (step4_letters
                  (unrun (map (fun r => (fst r, Nat.min (snd r) 3)) rs)))).
Proof.
  revert cur. induction rs as [|[c n] rs IH]; intros cur; [reflexivity|].
  cbn [map]. rewrite !unrun_cons, !lower_letters_app, !lower_letters_repeat.
  cbn [cap_dot fst snd].
  destruct (is_dot c) eqn:Hd.
  - apply split_go_app_congr, IH.
  - unfold is_dot in Hd. apply negb_false_iff, N.eqb_eq in Hd. subst c.
    change (lower_char (if is_letter 10%N then 10%N else chr " ")) with (chr " ").
    destruct n as [|n]; [apply IH|].
    rewrite !split_go_spaces by (reflexivity || lia).
    f_equal. apply IH.
Qed.

(** The one place where the third substitution and step 3 part: four
    line feeds stay four in the former and become three in the latter.
    Step 4 makes spaces of them either way. *)
Example line_feeds_are_not_cut :
  re_sub TRIM_REGEX TRIM_TAG [10; 10; 10; 10]%N = [10; 10; 10; 10]%N /\
  step3_collapse [10; 10; 10; 10]%N = [10; 10; 10]%N.
Proof. split; reflexivity. Qed.

Lemma words_of_steps (s : text) :
  words_of s =
  step5_tokens (step4_letters (step3_collapse (step2_replies (step1_urls s)))).
Proof.
  unfold words_of, step5_tokens, step3_collapse, split.
  rewrite sub_urls, sub_replies, sub_trim, sub_nonletters.
  apply words_of_runs.
Qed.

Lemma cleaned_normalize (stops : list text) (s : text) :
  cleaned stops s = normalize stops s.
Proof. unfold cleaned, normalize. rewrite words_of_steps. reflexivity. Qed.

(** C3. Given the stopword list of the language, [process_tweet] returns
    what the seven steps return when applied in order: URLs to [URL],
    [@username] to [REP], runs of four or more identical characters cut
    to three, non-letters to spaces, lower-casing and splitting, dropping
    the stopwords, joining with single spaces. *)
Theorem C3_process_tweet_is_the_seven_steps
    (sw : string -> result (list text)) (language : string)
    (stops : list text) (text0 : text) :
  sw language = Return stops ->
  Dataset.process_tweet sw text0 language = Return (normalize stops text0).
Proof.
  intros H. rewrite (process_tweet_Return sw language stops text0 H).
  rewrite cleaned_normalize. reflexivity.
Qed.

Lemma C3_witness :
  sample_stopwords "english" = Return english_sample /\
  Dataset.process_tweet sample_stopwords
    (of_string "Check http://x.co now!!! @username soooo good") "english"
  = Return (normalize english_sample
              (of_string "Check http://x.co now!!! @username soooo good")) /\
  normalize english_sample
    (of_string "Check http://x.co now!!! @username soooo good")
  = of_string "check url rep sooo good".
Proof.
  split; [reflexivity|]. split; [|vm_compute; reflexivity].
  apply (C3_process_tweet_is_the_seven_steps sample_stopwords "english"
           english_sample).
  reflexivity.
Defined.

(** ** Fixed points of [process_tweet] *)

(** Settles the comparisons of a code point that the context pins to a
    range. *)
Ltac range_cases :=
  repeat match goal with
         | |- context [(?a <=? ?b)%N] => destruct (N.leb_spec a b); try lia
         | |- context [(?a =? ?b)%N] => destruct (N.eqb_spec a b); try lia
         end.

Lemma is_lower_range (c : char) : is_lower c = true <-> (97 <= c <= 122)%N.
Proof.
  unfold is_lower, in_range. rewrite andb_true_iff, !N.leb_le. reflexivity.
Qed.

Lemma is_upper_range (c : char) : is_upper c = true <-> (65 <= c <= 90)%N.
Proof.
  unfold is_upper, in_range. rewrite andb_true_iff, !N.leb_le. reflexivity.
Qed.

Lemma lower_not_space (c : char) : is_lower c = true -> is_space c = false.
Proof.
  intros H%is_lower_range. unfold is_space, in_range. range_cases; try reflexivity.
Qed.

Lemma lower_not_upper (c : char) : is_lower c = true -> is_upper c = false.
Proof.
  intros H%is_lower_range. unfold is_upper, in_range. range_cases; try reflexivity.
Qed.

Lemma lower_char_letter (c : char) :
  is_letter c = true -> is_lower (lower_char c) = true.
Proof.
  unfold is_letter, lower_char. intros [H|H]%orb_true_iff.
  - rewrite (lower_not_upper c H). exact H.
  - rewrite H. apply is_upper_range in H. apply is_lower_range. lia.
Qed.

(** What [lower] and [split] receive: lower-case letters and spaces. *)
Lemma lower_letters_plain (s : text) :
  Forall plain (lower (step4_letters s)).
Proof.
  unfold lower, step4_letters. rewrite map_map. apply Forall_map.
  apply Forall_forall. intros c _. simpl.
  destruct (is_letter c) eqn:E.
  - left. apply lower_char_letter, E.
  - right. reflexivity.
Qed.

Lemma split_go_tokens (s cur : text) :
  Forall (fun c => is_lower c = true) cur ->
  Forall plain s ->
  Forall is_token (split_go cur s).
Proof.
  revert cur. induction s as [|c s IH]; intros cur Hcur Hs.
  - simpl. destruct cur as [|x cur]; [constructor|].
    constructor; [|constructor]. split.
    + intros E. apply (f_equal (@length _)) in E.
      rewrite length_rev in E. discriminate.
    + apply Forall_rev, Hcur.
  - inversion Hs as [|? ? Hc Hs']; subst. simpl.
    destruct (is_space c) eqn:Esp.
    + destruct cur as [|x cur]; [apply IH; [constructor | assumption]|].
      constructor; [|apply IH; [constructor | assumption]]. split.
      * intros E. apply (f_equal (@length _)) in E.
        rewrite length_rev in E. discriminate.
      * apply Forall_rev, Hcur.
    + apply IH; [|assumption]. constructor; [|assumption].
      destruct Hc as [Hc| ->]; [exact Hc | discriminate].
Qed.

Lemma words_of_tokens (s : text) : Forall is_token (words_of s).
Proof.
  unfold words_of, split. rewrite sub_nonletters.
  apply split_go_tokens; [constructor | apply lower_letters_plain].
Qed.

Lemma filter_Forall {A : Type} (P : A -> Prop) (f : A -> bool) (l : list A) :
  Forall P l -> Forall P (List.filter f l).
Proof.
  induction 1 as [|x l Hx _ IH]; simpl; [constructor|].
  destruct (f x); [constructor|]; assumption.
Qed.

Lemma filter_kept {A : Type} (f : A -> bool) (l : list A) :
  Forall (fun x => f x = true) (List.filter f l).
Proof.
  induction l as [|x l IH]; simpl; [constructor|].
  destruct (f x) eqn:E; [constructor|]; assumption.
Qed.

Lemma filter_all {A : Type} (f : A -> bool) (l : list A) :
  Forall (fun x => f x = true) l -> List.filter f l = l.
Proof.
  induction 1 as [|x l Hx _ IH]; simpl; [reflexivity|].
  rewrite Hx, IH. reflexivity.
Qed.

Lemma join_plain (ws : list text) :
  Forall is_token ws -> Forall plain (join (of_string " ") ws).
Proof.
  induction 1 as [|w ws [_ Hw] Hws IH]; [constructor|].
  assert (Hp : Forall plain w).
  { eapply Forall_impl; [exact Hw|]. intros c Hc. left. exact Hc. }
  destruct ws as [|w' ws]; [exact Hp|].
  change (join (of_string " ") (w :: w' :: ws))
    with (w ++ of_string " " ++ join (of_string " ") (w' :: ws)).
  apply Forall_app. split; [exact Hp|].
  apply Forall_app. split; [|exact IH].
  constructor; [right; reflexivity | constructor].
Qed.

Lemma split_go_word (w cur rest : text) :
  Forall (fun c => is_lower c = true) w ->
  split_go cur (w ++ rest) = split_go (rev w ++ cur) rest.
Proof.
  revert cur. induction w as [|c w IH]; intros cur Hw; [reflexivity|].
  inversion Hw as [|? ? Hc Hw']; subst. simpl.
  rewrite (lower_not_space c Hc), IH by assumption.
  rewrite <- app_assoc. reflexivity.
Qed.

Lemma split_join (ws : list text) :
  Forall is_token ws -> split (join (of_string " ") ws) = ws.
Proof.
  unfold split. induction 1 as [|w ws [Hne Hw] Hws IH]; [reflexivity|].
  destruct ws as [|w' ws].
  - simpl. rewrite <- (app_nil_r w) at 1. rewrite split_go_word by assumption.
    rewrite app_nil_r. simpl.
    destruct (rev w) eqn:E.
    + apply (f_equal (@rev _)) in E. rewrite rev_involutive in E. contradiction.
    + rewrite <- E, rev_involutive. reflexivity.
  - change (join (of_string " ") (w :: w' :: ws))
      with (w ++ chr " " :: join (of_string " ") (w' :: ws)).
    rewrite split_go_word by assumption. rewrite app_nil_r.
    cbn [split_go]. change (is_space (chr " ")) with true. cbv iota.
    rewrite IH.
    destruct (rev w) eqn:E.
    + apply (f_equal (@rev _)) in E. rewrite rev_involutive in E. contradiction.
    + rewrite <- E, rev_involutive. reflexivity.
Qed.

Lemma starts_with_In (w s : text) (c : char) :
  starts_with w s = true -> In c w -> In c s.
Proof.
  intros H Hc. rewrite (starts_with_split w s H). apply in_or_app. auto.
Qed.

(** A text of lower-case letters and spaces has no occurrence of a
    literal with another character in it. *)
Lemma starts_with_plain (w s : text) (c : char) :
  In c w -> ~ plain c -> Forall plain s -> starts_with w s = false.
Proof.
  intros Hc Hnp Hs. destruct (starts_with w s) eqn:E; [|reflexivity].
  exfalso. apply Hnp. rewrite Forall_forall in Hs. apply Hs.
  apply list_elem_of_In. exact (starts_with_In w s c E Hc).
Qed.

Lemma not_plain (c : char) : is_lower c = false -> c <> chr " " -> ~ plain c.
Proof. intros H1 H2 [H|H]; congruence. Qed.

Lemma url_at_plain (s : text) : Forall plain s -> url_at s = None.
Proof.
  intros Hs. unfold url_at, url_schemes. cbn [map List.find].
  rewrite !(starts_with_plain _ s (chr ":")); try assumption; try reflexivity;
    try (apply not_plain; [reflexivity | discriminate]);
    vm_compute; tauto.
Qed.

Lemma literal_at_plain (s : text) :
  Forall plain s -> literal_at (of_string "@username") s = None.
Proof.
  intros Hs. unfold literal_at.
  rewrite (starts_with_plain _ s (chr "@")); try assumption; try reflexivity.
  - vm_compute. tauto.
  - apply not_plain; [reflexivity | discriminate].
Qed.

Lemma replace_go_id (occ : text -> option nat) (tok s : text) :
  (forall x, Forall plain x -> occ x = None) ->
  Forall plain s -> replace_go occ tok 0 s = s.
Proof.
  intros Hocc. induction 1 as [|c s Hc Hs IH]; [reflexivity|].
  cbn [replace_go]. rewrite Hocc by (constructor; assumption).
  f_equal. exact IH.
Qed.

Lemma short_run (c : char) (s : text) :
  starts_with [c; c; c] s = false ->
  (3 <=? length (take_while (N.eqb c) s)) = false.
Proof.
  destruct s as [|x1 [|x2 [|x3 s]]]; simpl;
    repeat match goal with
           | |- context [(c =? ?x)%N] => destruct (c =? x)%N; simpl
           end; intros; try reflexivity; discriminate.
Qed.

Lemma sub_trim_id (s : text) :
  has_run4 s = false -> re_sub TRIM_REGEX TRIM_TAG s = s.
Proof.
  unfold re_sub. induction s as [|c s IH]; [reflexivity|].
  cbn [has_run4]. intros [H1 H2]%orb_false_iff.
  cbn [sub_go]. rewrite match_at_trim, (short_run c s H1), andb_false_r.
  f_equal. apply IH, H2.
Qed.

Lemma step4_letters_plain (s : text) : Forall plain s -> step4_letters s = s.
Proof.
  unfold step4_letters. induction 1 as [|c s Hc _ IH]; [reflexivity|].
  cbn [map]. rewrite IH. f_equal.
  destruct Hc as [Hc| ->]; [|reflexivity].
  unfold is_letter. rewrite Hc. reflexivity.
Qed.

Lemma lower_plain (s : text) : Forall plain s -> lower s = s.
Proof.
  unfold lower. induction 1 as [|c s Hc _ IH]; [reflexivity|].
  cbn [map]. rewrite IH. f_equal.
  destruct Hc as [Hc| ->]; [|reflexivity].
  unfold lower_char. rewrite (lower_not_upper c Hc). reflexivity.
Qed.

(** A text that [process_tweet] could have produced and that has no run
    of four is returned as it is. *)
Lemma cleaned_fixed (stops : list text) (ws : list text) :
  Forall is_token ws ->
  Forall (fun w => negb (mem w stops) = true) ws ->
  has_run4 (join (of_string " ") ws) = false ->
  cleaned stops (join (of_string " ") ws) = join (of_string " ") ws.
Proof.
  intros Htok Hkeep Hrun.
  pose proof (join_plain ws Htok) as Hp.
  unfold cleaned, words_of.
  rewrite sub_urls. unfold step1_urls, replace_each.
  rewrite (replace_go_id url_at _ _ url_at_plain Hp).
  rewrite sub_replies. unfold step2_replies, replace_each.
  rewrite (replace_go_id _ _ _ literal_at_plain Hp).
  rewrite (sub_trim_id _ Hrun), sub_nonletters.
  rewrite (step4_letters_plain _ Hp), (lower_plain _ Hp), (split_join ws Htok).
  rewrite (filter_all _ ws Hkeep). reflexivity.
Qed.

(** ** A run of four is cut: the converse *)

Lemma starts_with_repeat (c : char) (k : nat) (s : text) :
  starts_with (repeat c k) s = (k <=? length (take_while (N.eqb c) s)).
Proof.
  revert s. induction k as [|k IH]; intros s; [reflexivity|].
  destruct s as [|x s]; [reflexivity|]. cbn [repeat starts_with take_while].
  destruct (c =? x)%N; [|reflexivity]. cbn [andb length]. apply IH.
Qed.

Lemma has_run4_cons (c : char) (s : text) :
  has_run4 (c :: s) =
  (3 <=? length (take_while (N.eqb c) s)) || has_run4 (drop_while (N.eqb c) s).
Proof.
  revert c. induction s as [|x s IH]; intros c; [reflexivity|].
  change (has_run4 (c :: x :: s))
    with (starts_with (repeat c 3) (x :: s) || has_run4 (x :: s)).
  rewrite starts_with_repeat. cbn [take_while drop_while].
  destruct (N.eqb_spec c x) as [<-|Hne]; [|reflexivity].
  rewrite (IH c). cbn [length].
  destruct (Nat.leb_spec 3 (S (length (take_while (N.eqb c) s))));
    destruct (Nat.leb_spec 3 (length (take_while (N.eqb c) s)));
    try reflexivity; lia.
Qed.

Lemma sub_trim_cons (c : char) (s : text) :
  re_sub TRIM_REGEX TRIM_TAG (c :: s) =
  repeat c (if is_dot c then Nat.min (S (length (take_while (N.eqb c) s))) 3
            else S (length (take_while (N.eqb c) s)))
  ++ re_sub TRIM_REGEX TRIM_TAG (drop_while (N.eqb c) s).
Proof. rewrite !sub_trim, runs_of_cons. reflexivity. Qed.

(** The third substitution never lengthens a text, and shortens one that
    has a run of four of a character the dot matches. *)
Lemma sub_trim_length (n : nat) (s : text) :
  length s <= n ->
  Forall (fun c => is_dot c = true) s ->
  length (re_sub TRIM_REGEX TRIM_TAG s) + (if has_run4 s then 1 else 0)
  <= length s.
Proof.
  revert s. induction n as [|n IH]; intros s Hn Hs.
  - destruct s; [simpl; lia | simpl in Hn; lia].
  - destruct s as [|c s]; [simpl; lia|]. simpl in Hn.
    inversion Hs as [|? ? Hc Hs']; subst.
    rewrite sub_trim_cons, has_run4_cons, Hc, length_app, repeat_length.
    pose proof (length_drop_while (N.eqb c) s) as Hlen.
    assert (Hrest : Forall (fun c => is_dot c = true) (drop_while (N.eqb c) s)).
    { rewrite <- (take_drop_while (N.eqb c) s) in Hs'.
      apply Forall_app in Hs'. tauto. }
    specialize (IH (drop_while (N.eqb c) s) ltac:(lia) Hrest).
    cbn [length].
    destruct (Nat.leb_spec 3 (length (take_while (N.eqb c) s))); cbn [orb].
    + destruct (has_run4 (drop_while (N.eqb c) s)); lia.
    + destruct (has_run4 (drop_while (N.eqb c) s)); lia.
Qed.

Lemma join_length (sep w : text) (ws : list text) :
  length (join sep (w :: ws)) =
  length w + match ws with
             | [] => 0
             | _ => length sep + length (join sep ws)
             end.
Proof.
  destruct ws as [|w' ws]; [simpl; lia|].
  change (join sep (w :: w' :: ws)) with (w ++ sep ++ join sep (w' :: ws)).
  rewrite !length_app. reflexivity.
Qed.

Lemma split_go_length (s cur : text) :
  length (join (of_string " ") (split_go cur s)) <= length cur + length s.
Proof.
  revert cur. induction s as [|c s IH]; intros cur.
  - simpl. destruct cur as [|x cur]; [simpl; lia|].
    cbn [join]. rewrite length_rev. lia.
  - cbn [split_go length]. destruct (is_space c).
    + destruct cur as [|x cur].
      * specialize (IH []). simpl in IH. simpl. lia.
      * rewrite join_length, length_rev. specialize (IH []). simpl in IH.
        destruct (split_go [] s); simpl in *; lia.
    + specialize (IH (c :: cur)). simpl in IH. lia.
Qed.

Lemma filter_join_length (f : text -> bool) (ws : list text) :
  length (join (of_string " ") (List.filter f ws))
  <= length (join (of_string " ") ws).
Proof.
  induction ws as [|w ws IH]; [reflexivity|].
  cbn [List.filter]. rewrite (join_length _ w ws).
  destruct (f w).
  - rewrite join_length.
    destruct (List.filter f ws) eqn:E; [lia|].
    destruct ws; [discriminate|]. lia.
  - destruct ws; [simpl in *; lia|]. lia.
Qed.

Lemma plain_is_dot (s : text) :
  Forall plain s -> Forall (fun c => is_dot c = true) s.
Proof.
  intros Hs. eapply Forall_impl; [exact Hs|]. intros c [H| ->]; [|reflexivity].
  apply is_lower_range in H. unfold is_dot. range_cases; try reflexivity.
Qed.

(** A normalized text with a run of four is not returned as it is. *)
Lemma cleaned_shorter (stops : list text) (ws : list text) :
  Forall is_token ws ->
  has_run4 (join (of_string " ") ws) = true ->
  length (cleaned stops (join (of_string " ") ws))
  < length (join (of_string " ") ws).
Proof.
  intros Htok Hrun.
  pose proof (join_plain ws Htok) as Hp.
  set (y := join (of_string " ") ws) in *.
  unfold cleaned, words_of.
  rewrite sub_urls. unfold step1_urls, replace_each.
  rewrite (replace_go_id url_at _ _ url_at_plain Hp).
  rewrite sub_replies. unfold step2_replies, replace_each.
  rewrite (replace_go_id _ _ _ literal_at_plain Hp), sub_nonletters.
  pose proof (sub_trim_length (length y) y (le_n _) (plain_is_dot y Hp)) as Hlen.
  rewrite Hrun in Hlen.
  set (x := re_sub TRIM_REGEX TRIM_TAG y) in *.
  pose proof (filter_join_length (fun w => negb (mem w stops))
                (split (lower (step4_letters x)))) as H1.
  pose proof (split_go_length (lower (step4_letters x)) []) as H2.
  assert (Hl : length (lower (step4_letters x)) = length x).
  { unfold lower, step4_letters. rewrite !length_map. reflexivity. }
  rewrite Hl in H2. unfold split in *. simpl in H2. lia.
Qed.

(** C7 (amended). Normalizing again changes nothing exactly when the
    normalized text has no run of four or more identical characters: if
    [process_tweet] returned [y], then [process_tweet] on [y], with the
    same language, returns [y] if and only if [y] has no such run. In
    particular it is idempotent on every text whose normal form has no
    run of four. *)
Theorem C7_idempotent_iff_no_long_run
    (sw : string -> result (list text)) (language : string) (text0 y : text) :
  Dataset.process_tweet sw text0 language = Return y ->
  (Dataset.process_tweet sw y language = Return y <-> has_run4 y = false).
Proof.
  intros Hy. destruct (sw language) as [stops|e] eqn:Hsw.
  - rewrite (process_tweet_Return sw language stops text0 Hsw) in Hy.
    injection Hy as <-.
    rewrite (process_tweet_Return sw language stops _ Hsw).
    assert (Htok : Forall is_token
              (List.filter (fun w => negb (mem w stops)) (words_of text0))).
    { apply filter_Forall, words_of_tokens. }
    split.
    + intros [= H]. destruct (has_run4 (cleaned stops text0)) eqn:Hrun; [|reflexivity].
      exfalso. unfold cleaned at 1 in Hrun.
      pose proof (cleaned_shorter stops _ Htok Hrun) as Hlt.
      fold (cleaned stops text0) in Hlt. rewrite H in Hlt. lia.
    + intros Hrun. f_equal. unfold cleaned at 2. unfold cleaned in Hrun.
      apply cleaned_fixed; [exact Htok | apply filter_kept | exact Hrun].
  - rewrite (process_tweet_Raise sw language e text0 Hsw) in Hy. discriminate.
Qed.

Lemma C7_witness :
  Dataset.process_tweet sample_stopwords
    (of_string "Check http://x.co now!!! @username soooo good") "english"
  = Return (of_string "check url rep sooo good") /\
  (Dataset.process_tweet sample_stopwords
     (of_string "check url rep sooo good") "english"
   = Return (of_string "check url rep sooo good") <->
   has_run4 (of_string "check url rep sooo good") = false).
Proof.
  assert (H1 : Dataset.process_tweet sample_stopwords
                 (of_string "Check http://x.co now!!! @username soooo good")
                 "english"
               = Return (of_string "check url rep sooo good")).
  { vm_compute. reflexivity. }
  split; [exact H1|].
  exact (C7_idempotent_iff_no_long_run sample_stopwords "english" _ _ H1).
Defined.

(** C7, the claim as stated fails: the runs are cut before the text is
    lower-cased, so [aaAA] normalizes to [aaaa], and [aaaa] to [aaa]. *)
Lemma C7_counterexample :
  Dataset.process_tweet sample_stopwords (of_string "aaAA") "english"
    = Return (of_string "aaaa") /\
  Dataset.process_tweet sample_stopwords (of_string "aaaa") "english"
    = Return (of_string "aaa") /\
  of_string "aaa" <> of_string "aaaa".
Proof.
  split; [vm_compute; reflexivity|]. split; [vm_compute; reflexivity|].
  vm_compute. discriminate.
Qed.

(** * Further properties *)

(** ** The constructor and the methods of [Dataset] *)

Lemma init_loop_fields (post_data : list Dataset.tweet_dict) (acc : list text) :
  foldM (fun self td =>
           match td !! "text"%string with
           | Some tweet => Dataset.append_tweet self tweet
           | None => Raise (KeyError "text")
           end) post_data (loaded acc)
  = match text_fields post_data with
    | Some tws => Return (loaded (acc ++ tws))
    | None => Raise (KeyError "text")
    end.
Proof.
  revert acc. induction post_data as [|td tds IH]; intros acc.
  - simpl. rewrite app_nil_r. reflexivity.
  - cbn [foldM text_fields]. destruct (td !! "text"%string) as [tw|]; [|reflexivity].
    simpl bind. change (Dataset.mk _ _ _ _ _ _ _ _) with (loaded (acc ++ [tw])).
    rewrite IH. destruct (text_fields tds); [|reflexivity].
    rewrite <- app_assoc. reflexivity.
Qed.

(** X1. [Dataset(post_data)] keeps the ["text"] entry of every object,
    in order, and nothing else; if some object has no ["text"] entry it
    raises [KeyError('text')] and no instance is made. *)
Theorem X1_init_texts_or_KeyError (post_data : list Dataset.tweet_dict) :
  Dataset.init (Some post_data) =
  match text_fields post_data with
  | Some tws => Return (loaded tws)
  | None => Raise (KeyError "text")
  end.
Proof. exact (init_loop_fields post_data []). Qed.

(** X2. On a constructed instance the [is None] test of the [count_avg_*]
    methods never fails: none of the six returns [None]. Each raises
    [ZeroDivisionError] (no tweet) or returns a number. *)
Theorem X2_count_avg_never_None
    (unicode_alnum : char -> bool)
    (timeline_list : option (list Dataset.tweet_dict)) (d : Dataset.t) :
  Dataset.init timeline_list = Return d ->
  Forall (fun r => r = Raise ZeroDivisionError \/ exists q, r = Return (Some q))
    [Dataset.count_avg_emoticons d;
     Dataset.count_avg_hashtags unicode_alnum d;
     Dataset.count_avg_exclamations d;
     Dataset.count_avg_replies d;
     Dataset.count_avg_repetitions unicode_alnum d;
     Dataset.count_avg_tweet_len d].
Proof.
  intros [tl ->]%init_fresh.
  assert (H : forall n, Dataset.count_avg n (loaded tl) = Raise ZeroDivisionError \/
                        exists q, Dataset.count_avg n (loaded tl) = Return (Some q)).
  { intros n. destruct tl as [|tw tl]; [left; reflexivity|].
    right. rewrite count_avg_nonempty by discriminate. eauto. }
  do 6 (constructor; [apply H|]). constructor.
Qed.

Lemma X2_witness :
  Dataset.init (Some two_posts) =
    Return (loaded (map of_string ["I love this!!! :) #great"; "meh"]%string)) /\
  Forall (fun r => r = Raise ZeroDivisionError \/ exists q, r = Return (Some q))
    (let d := loaded (map of_string ["I love this!!! :) #great"; "meh"]%string) in
     [Dataset.count_avg_emoticons d;
      Dataset.count_avg_hashtags ascii_only d;
      Dataset.count_avg_exclamations d;
      Dataset.count_avg_replies d;
      Dataset.count_avg_repetitions ascii_only d;
      Dataset.count_avg_tweet_len d]).
Proof.
  assert (H : Dataset.init (Some two_posts) =
    Return (loaded (map of_string ["I love this!!! :) #great"; "meh"]%string))).
  { vm_compute. reflexivity. }
  split; [exact H|].
  exact (X2_count_avg_never_None ascii_only (Some two_posts) _ H).
Defined.

Lemma mapM_first_Raise {A B : Type} (f : A -> result B) (e : exn) (x : A)
    (xs : list A) :
  f x = Raise e -> mapM f (x :: xs) = Raise e.
Proof. intros H. simpl. rewrite H. reflexivity. Qed.

(** X3. When the stopword loader fails, [process] raises the loader's
    exception as soon as there is a tweet to normalize; with no tweet it
    never calls the loader and returns the empty document. *)
Theorem X3_process_when_the_loader_fails
    (sw : string -> result (list text)) (e : exn) (d : Dataset.t)
    (tl : list text) :
  sw "english"%string = Raise e ->
  Dataset.timeline d = Some tl ->
  Dataset.process sw d =
  match tl with
  | [] =>
      Return (Dataset.mk (Some []) (Dataset.avg_emoticon_counts d)
                (Dataset.avg_hashtag_counts d) (Dataset.avg_exclamation_counts d)
                (Dataset.avg_reply_counts d) (Dataset.avg_repetition_counts d)
                (Dataset.avg_tweet_len d) (Some []),
              ([[]],
               [Dataset.avg_emoticon_counts d; Dataset.avg_hashtag_counts d;
                Dataset.avg_exclamation_counts d; Dataset.avg_reply_counts d;
                Dataset.avg_repetition_counts d; Dataset.avg_tweet_len d]))
  | _ :: _ => Raise e
  end.
Proof.
  intros Hsw Htl. unfold Dataset.process. rewrite Htl. simpl bind.
  destruct tl as [|tw tl]; [reflexivity|].
  rewrite (mapM_first_Raise _ e); [reflexivity|].
  apply process_tweet_Raise, Hsw.
Qed.

Lemma X3_witness :
  (fun _ : string => @Raise (list text) (PyErr "LookupError" "stopwords"))
    "english"%string = Raise (PyErr "LookupError" "stopwords") /\
  Dataset.timeline (loaded [of_string "meh"]) = Some [of_string "meh"] /\
  Dataset.process (fun _ => Raise (PyErr "LookupError" "stopwords"))
    (loaded [of_string "meh"]) = Raise (PyErr "LookupError" "stopwords").
Proof.
  split; [reflexivity|]. split; [reflexivity|].
  exact (X3_process_when_the_loader_fails
           (fun _ => Raise (PyErr "LookupError" "stopwords"))
           (PyErr "LookupError" "stopwords") (loaded [of_string "meh"])
           [of_string "meh"] eq_refl eq_refl).
Defined.

Lemma count_avg_timeline (n : text -> nat) (d : Dataset.t) (tl : list text) :
  Dataset.timeline d = Some tl -> tl <> [] ->
  Dataset.count_avg n d = Return (Some (average n tl)).
Proof.
  intros Htl Hne. unfold Dataset.count_avg. rewrite Htl.
  destruct tl as [|tw tl]; [congruence|]. reflexivity.
Qed.

Lemma generate_features_timeline (unicode_alnum : char -> bool) (d : Dataset.t)
    (tl : list text) :
  Dataset.timeline d = Some tl -> tl <> [] ->
  Dataset.generate_features unicode_alnum d =
  Return (Dataset.mk (Some tl)
            (Some (average (findall_len EMOTICON_REGEX) tl))
            (Some (average (findall_len (HASHTAG_REGEX unicode_alnum)) tl))
            (Some (average (findall_len EXCLAMATION_REGEX) tl))
            (Some (average (findall_len REPLY_REGEX) tl))
            (Some (average (findall_len (REPETITION_REGEX unicode_alnum)) tl))
            (Some (average (fun tw => length tw) tl))
            (Dataset.processed_timeline d)).
Proof.
  intros Htl Hne. unfold Dataset.generate_features,
    Dataset.count_avg_emoticons, Dataset.count_avg_hashtags,
    Dataset.count_avg_exclamations, Dataset.count_avg_replies,
    Dataset.count_avg_repetitions, Dataset.count_avg_tweet_len.
  rewrite !(count_avg_timeline _ d tl Htl Hne). simpl. rewrite Htl. reflexivity.
Qed.

(** X4. The instance ends the same whichever of [generate_features] and
    [process] is called first: on a non-empty batch, with the English
    stopword list there, both orders leave the tweets, the six averages
    and the document in it. Only what [process] returns differs (the
    features as they were when it was called). *)
Theorem X4_generate_features_and_process_commute
    (unicode_alnum : char -> bool) (sw : string -> result (list text))
    (stops : list text) (d : Dataset.t) (tl : list text) :
  sw "english"%string = Return stops ->
  Dataset.timeline d = Some tl ->
  tl <> [] ->
  (exists d1,
     Dataset.generate_features unicode_alnum d = Return d1 /\
     Dataset.process sw d1 =
       Return (finished unicode_alnum stops tl,
               ([document stops tl], features_of unicode_alnum tl))) /\
  (exists d1 out,
     Dataset.process sw d = Return (d1, out) /\
     Dataset.generate_features unicode_alnum d1 =
       Return (finished unicode_alnum stops tl)).
Proof.
  intros Hsw Htl Hne. split.
  - pose proof (generate_features_timeline unicode_alnum d tl Htl Hne) as Hg.
    match type of Hg with _ = Return ?x => set (d1 := x) in * end.
    exists d1. split; [exact Hg|].
    exact (process_Return sw stops d1 tl Hsw eq_refl).
  - pose proof (process_Return sw stops d tl Hsw Htl) as Hp. cbv zeta in Hp.
    match type of Hp with _ = Return (?x, ?o) => set (d1 := x) in *; exists d1, o end.
    split; [exact Hp|].
    exact (generate_features_timeline unicode_alnum d1 tl eq_refl Hne).
Qed.

Lemma X4_witness :
  sample_stopwords "english" = Return english_sample /\
  Dataset.timeline (loaded [of_string "so good!!!"]) = Some [of_string "so good!!!"] /\
  [of_string "so good!!!"] <> [] /\
  (exists d1,
     Dataset.generate_features ascii_only (loaded [of_string "so good!!!"]) = Return d1 /\
     Dataset.process sample_stopwords d1 =
       Return (finished ascii_only english_sample [of_string "so good!!!"],
               ([document english_sample [of_string "so good!!!"]],
                features_of ascii_only [of_string "so good!!!"]))) /\
  (exists d1 out,
     Dataset.process sample_stopwords (loaded [of_string "so good!!!"]) = Return (d1, out) /\
     Dataset.generate_features ascii_only d1 =
       Return (finished ascii_only english_sample [of_string "so good!!!"])).
Proof.
  split; [reflexivity|]. split; [reflexivity|]. split; [discriminate|].
  exact (X4_generate_features_and_process_commute ascii_only sample_stopwords
           english_sample (loaded [of_string "so good!!!"])
           [of_string "so good!!!"] eq_refl eq_refl ltac:(discriminate)).
Defined.

(** ** What the style features count *)

Lemma take_while_ext (p q : char -> bool) (s : text) :
  (forall c, p c = q c) -> take_while p s = take_while q s.
Proof.
  intros H. induction s as [|c s IH]; [reflexivity|]. simpl.
  rewrite H, IH. reflexivity.
Qed.

Lemma drop_while_ext (p q : char -> bool) (s : text) :
  (forall c, p c = q c) -> drop_while p s = drop_while q s.
Proof.
  intros H. induction s as [|c s IH]; [reflexivity|]. simpl.
  rewrite H, IH. reflexivity.
Qed.

(** A greedy repeat of a character class before a continuation that
    always succeeds takes the whole run. *)
Lemma rep_cls_some (p : char -> bool) (F : text -> option text -> mres)
    (lo fuel i : nat) (s : text) (g : option text) :
  length s <= fuel ->
  rep_loop (rx (Cls p)) lo None (fun s1 g1 => Some (F s1 g1)) fuel i s g =
  if lo <=? i + length (take_while p s) then Some (F (drop_while p s) g) else None.
Proof.
  revert i s. induction fuel as [|fuel IH]; intros i s Hf.
  - destruct s; [|simpl in Hf; lia]. simpl. rewrite Nat.add_0_r. reflexivity.
  - destruct s as [|x s].
    + simpl. rewrite Nat.add_0_r. destruct (lo <=? i); reflexivity.
    + simpl in Hf. simpl. destruct (p x); simpl.
      * replace (length s <? S (length s)) with true
          by (symmetry; apply Nat.ltb_lt; lia).
        rewrite IH by lia. rewrite <- Nat.add_succ_comm.
        destruct (lo <=? S i + length (take_while p s)) eqn:E; [reflexivity|].
        simpl. apply Nat.leb_gt in E.
        destruct (lo <=? i) eqn:E'; [apply Nat.leb_le in E'; lia | reflexivity].
      * rewrite Nat.add_0_r. reflexivity.
Qed.

Lemma count_runs_cons (p : char -> bool) (k : nat) (c : char) (s : text) :
  count_runs p k (c :: s) =
  (if p c && (k <=? S (length (take_while (N.eqb c) s))) then 1 else 0)
  + count_runs p k (drop_while (N.eqb c) s).
Proof.
  unfold count_runs. rewrite runs_of_cons. cbn [List.filter fst snd].
  destruct (p c && (k <=? S (length (take_while (N.eqb c) s)))); reflexivity.
Qed.

(** *** Exclamation marks *)

Lemma match_at_exclamation (s : text) :
  match_at EXCLAMATION_REGEX s =
  if 1 <=? length (take_while (fun x => (x =? chr "!")%N) s)
  then Some (drop_while (fun x => (x =? chr "!")%N) s, None) else None.
Proof.
  unfold match_at, EXCLAMATION_REGEX, Plus. rewrite rx_rep.
  change (rx (Lit (chr "!"))) with (rx (Cls (fun x => (x =? chr "!")%N))).
  rewrite rep_cls_final by lia. reflexivity.
Qed.

Lemma count_exclamation_other (c : char) (k : nat) (rest : text) :
  c <> chr "!" ->
  count_go EXCLAMATION_REGEX 0 (repeat c k ++ rest)
  = count_go EXCLAMATION_REGEX 0 rest.
Proof.
  intros Hc. induction k as [|k IH]; [reflexivity|].
  cbn [repeat app count_go]. rewrite match_at_exclamation.
  cbn [take_while]. destruct (N.eqb_spec c (chr "!")); [contradiction|].
  exact IH.
Qed.

Lemma count_exclamation_runs (n : nat) (s : text) :
  length s <= n ->
  count_go EXCLAMATION_REGEX 0 s = count_runs (fun c => (c =? chr "!")%N) 1 s.
Proof.
  revert s. induction n as [|n IH]; intros s Hn.
  - destruct s; [reflexivity | simpl in Hn; lia].
  - destruct s as [|c s]; [reflexivity|]. simpl in Hn.
    rewrite count_runs_cons.
    pose proof (length_drop_while (N.eqb c) s) as Hlen.
    rewrite <- (IH (drop_while (N.eqb c) s)) by lia.
    destruct (N.eqb_spec c (chr "!")) as [->|Hc].
    + cbn [count_go]. rewrite match_at_exclamation.
      cbn [take_while drop_while]. rewrite N.eqb_refl. cbn [length Nat.leb andb].
      rewrite (drop_while_ext (fun x => (x =? chr "!")%N) (N.eqb (chr "!")))
        by (intros; apply N.eqb_sym).
      replace (pred (S (length s) - length (drop_while (N.eqb (chr "!")) s)))
        with (length (take_while (N.eqb (chr "!")) s)) by (cbn [length]; lia).
      rewrite (count_go_skip _ (length (take_while (N.eqb (chr "!")) s)) s) by lia.
      rewrite drop_take_while. reflexivity.
    + cbn [andb]. rewrite (first_run c s) at 1.
      apply count_exclamation_other, Hc.
Qed.

(** X5. The exclamation count of a tweet is the number of its maximal
    runs of [!]: three marks in a row count once. The average of
    [count_avg_exclamations] is the average of those numbers. *)
Theorem X5_exclamations_are_counted_by_run (tweet : text) (d : Dataset.t) :
  findall_len EXCLAMATION_REGEX tweet
    = count_runs (fun c => (c =? chr "!")%N) 1 tweet /\
  Dataset.count_avg_exclamations d
    = Dataset.count_avg (count_runs (fun c => (c =? chr "!")%N) 1) d.
Proof.
  split; [exact (count_exclamation_runs (length tweet) tweet (le_n _))|].
  apply count_avg_ext. intros tw.
  exact (count_exclamation_runs (length tw) tw (le_n _)).
Qed.

(** *** Repetitions *)

Lemma match_at_repetition (p : char -> bool) (c : char) (s : text) :
  match_at (Cat (Grp (Cls p)) (Rep 3 None Ref)) (c :: s) =
  if p c && (3 <=? length (take_while (N.eqb c) s))
  then Some (drop_while (N.eqb c) s, Some [c]) else None.
Proof.
  change (match_at (Cat (Grp (Cls p)) (Rep 3 None Ref)) (c :: s))
    with (if p c
          then rep_loop (rx Ref) 3 None (fun s1 g1 => Some (s1, g1)) (length s) 0 s
                 (Some (take (length (c :: s) - length s) (c :: s)))
          else None).
  destruct (p c); [|reflexivity].
  replace (length (c :: s) - length s) with 1 by (simpl; lia).
  cbn [take andb]. rewrite rep_ref_final by lia. reflexivity.
Qed.

Lemma count_repetition_short (p : char -> bool) (c : char) (k : nat) (rest : text) :
  p c = false \/ k <= 3 ->
  take_while (N.eqb c) rest = [] ->
  count_go (Cat (Grp (Cls p)) (Rep 3 None Ref)) 0 (repeat c k ++ rest)
  = count_go (Cat (Grp (Cls p)) (Rep 3 None Ref)) 0 rest.
Proof.
  intros Hk Hrest. induction k as [|k IH]; [reflexivity|].
  cbn [repeat app count_go]. rewrite match_at_repetition.
  rewrite (take_while_repeat_app c k rest Hrest).
  replace (p c && (3 <=? k)) with false.
  - apply IH. destruct Hk; [auto | right; lia].
  - destruct Hk as [->|Hk]; [reflexivity|].
    replace (3 <=? k) with false by (symmetry; apply Nat.leb_gt; lia).
    destruct (p c); reflexivity.
Qed.

Lemma count_repetition_runs (p : char -> bool) (n : nat) (s : text) :
  length s <= n ->
  count_go (Cat (Grp (Cls p)) (Rep 3 None Ref)) 0 s = count_runs p 4 s.
Proof.
  revert s. induction n as [|n IH]; intros s Hn.
  - destruct s; [reflexivity | simpl in Hn; lia].
  - destruct s as [|c s]; [reflexivity|]. simpl in Hn.
    rewrite count_runs_cons.
    pose proof (length_drop_while (N.eqb c) s) as Hlen.
    rewrite <- (IH (drop_while (N.eqb c) s)) by lia.
    change (4 <=? S (length (take_while (N.eqb c) s)))
      with (3 <=? length (take_while (N.eqb c) s)).
    destruct (p c && (3 <=? length (take_while (N.eqb c) s))) eqn:E.
    + cbn [count_go]. rewrite match_at_repetition, E.
      replace (pred (length (c :: s) - length (drop_while (N.eqb c) s)))
        with (length (take_while (N.eqb c) s)) by (simpl; lia).
      rewrite (count_go_skip _ (length (take_while (N.eqb c) s)) s) by lia.
      rewrite drop_take_while. reflexivity.
    + rewrite (first_run c s) at 1.
      apply count_repetition_short; [|apply take_while_drop_while].
      apply andb_false_iff in E as [E|E]; [auto|].
      apply Nat.leb_gt in E. right. lia.
Qed.

(** X7. The repetition count of a tweet is the number of its maximal
    runs of four or more copies of one word character: a longer run
    counts once, and a run of anything else (spaces, punctuation) counts
    for nothing. *)
Theorem X7_repetitions_are_runs_of_four
    (unicode_alnum : char -> bool) (tweet : text) (d : Dataset.t) :
  findall_len (REPETITION_REGEX unicode_alnum) tweet
    = count_runs (is_word unicode_alnum) 4 tweet /\
  Dataset.count_avg_repetitions unicode_alnum d
    = Dataset.count_avg (count_runs (is_word unicode_alnum) 4) d.
Proof.
  split; [exact (count_repetition_runs _ (length tweet) tweet (le_n _))|].
  apply count_avg_ext. intros tw.
  exact (count_repetition_runs _ (length tw) tw (le_n _)).
Qed.

(** *** Hashtags *)

Lemma match_at_hashtag (w : char -> bool) (c : char) (s : text) :
  match_at (Cat (Lit (chr "#")) (Grp (Plus (Cls w)))) (c :: s) =
  if (c =? chr "#")%N && (1 <=? length (take_while w s))
  then Some (drop_while w s,
             Some (take (length s - length (drop_while w s)) s))
  else None.
Proof.
  change (match_at (Cat (Lit (chr "#")) (Grp (Plus (Cls w)))) (c :: s))
    with (if (c =? chr "#")%N
          then rep_loop (rx (Cls w)) 1 None
                 (fun s1 g1 => Some (s1, Some (take (length s - length s1) s)))
                 (length s) 0 s None
          else None).
  destruct (c =? chr "#")%N; [|reflexivity].
  rewrite (rep_cls_some w (fun s1 _ => (s1, Some (take (length s - length s1) s))))
    by lia.
  reflexivity.
Qed.

Lemma hashtag_starts_skip (w : char -> bool) (s : text) :
  w (chr "#") = false ->
  hashtag_starts w s = hashtag_starts w (drop_while w s).
Proof.
  intros Hw. induction s as [|c s IH]; [reflexivity|].
  cbn [drop_while]. destruct (w c) eqn:Ec; [|reflexivity].
  cbn [hashtag_starts]. rewrite <- IH.
  destruct (N.eqb_spec c (chr "#")) as [->|_]; [congruence | reflexivity].
Qed.

Lemma count_hashtag_starts (w : char -> bool) (n : nat) (s : text) :
  w (chr "#") = false ->
  length s <= n ->
  count_go (Cat (Lit (chr "#")) (Grp (Plus (Cls w)))) 0 s = hashtag_starts w s.
Proof.
  intros Hw. revert s. induction n as [|n IH]; intros s Hn.
  - destruct s; [reflexivity | simpl in Hn; lia].
  - destruct s as [|c s]; [reflexivity|]. simpl in Hn.
    cbn [count_go hashtag_starts]. rewrite match_at_hashtag.
    assert (Hhead : (1 <=? length (take_while w s))
                    = match s with d :: _ => w d | [] => false end).
    { destruct s as [|d s]; [reflexivity|]. simpl. destruct (w d); reflexivity. }
    rewrite <- Hhead.
    destruct ((c =? chr "#")%N && (1 <=? length (take_while w s))) eqn:E.
    + pose proof (length_drop_while w s) as Hlen.
      replace (pred (length (c :: s) - length (drop_while w s)))
        with (length (take_while w s)) by (cbn [length]; lia).
      rewrite (count_go_skip _ (length (take_while w s)) s) by lia.
      rewrite drop_take_while, (IH (drop_while w s)) by lia.
      rewrite <- (hashtag_starts_skip w s Hw). reflexivity.
    + rewrite (IH s) by lia. reflexivity.
Qed.

Lemma hash_is_not_a_word_character (unicode_alnum : char -> bool) :
  is_word unicode_alnum (chr "#") = false.
Proof. reflexivity. Qed.

(** X6. The hashtag count of a tweet is the number of its [#] that a
    word character follows immediately: a [#] alone, or before a space
    or punctuation, counts for nothing, and [#a#b] counts twice. *)
Theorem X6_hashtags_are_hashes_before_a_word
    (unicode_alnum : char -> bool) (tweet : text) (d : Dataset.t) :
  findall_len (HASHTAG_REGEX unicode_alnum) tweet
    = hashtag_starts (is_word unicode_alnum) tweet /\
  Dataset.count_avg_hashtags unicode_alnum d
    = Dataset.count_avg (hashtag_starts (is_word unicode_alnum)) d.
Proof.
  pose proof (hash_is_not_a_word_character unicode_alnum) as Hw.
  split; [exact (count_hashtag_starts _ (length tweet) tweet Hw (le_n _))|].
  apply count_avg_ext. intros tw.
  exact (count_hashtag_starts _ (length tw) tw Hw (le_n _)).
Qed.

(** ** What [process_tweet] returns *)

(** X8. Whatever the tweet, what [process_tweet] returns is a list of
    words joined by single spaces, each word made of lower-case ASCII
    letters only (at least one) and none of them a stopword; splitting
    the result gives the words back. So the result has no digit, no
    punctuation, no upper-case letter, and no space at either end or
    doubled. *)
Theorem X8_process_tweet_returns_clean_words
    (sw : string -> result (list text)) (language : string)
    (stops : list text) (text0 : text) :
  sw language = Return stops ->
  exists ws,
    Dataset.process_tweet sw text0 language = Return (join (of_string " ") ws) /\
    Forall is_token ws /\
    Forall (fun w => w ∉ stops) ws /\
    Forall plain (join (of_string " ") ws) /\
    split (join (of_string " ") ws) = ws.
Proof.
  intros Hsw.
  exists (List.filter (fun w => negb (mem w stops)) (words_of text0)).
  assert (Htok : Forall is_token
            (List.filter (fun w => negb (mem w stops)) (words_of text0))).
  { apply filter_Forall, words_of_tokens. }
  split; [apply (process_tweet_Return sw language stops text0 Hsw)|].
  split; [exact Htok|]. split; [|split; [apply join_plain, Htok | apply split_join, Htok]].
  eapply Forall_impl; [apply filter_kept|]. intros w Hw. simpl in Hw.
  unfold mem in Hw. apply negb_true_iff, bool_decide_eq_false in Hw. exact Hw.
Qed.

Lemma X8_witness :
  sample_stopwords "english" = Return english_sample /\
  exists ws,
    Dataset.process_tweet sample_stopwords
      (of_string "Check http://x.co now!!! @username soooo good") "english"
      = Return (join (of_string " ") ws) /\
    Forall is_token ws /\
    Forall (fun w => w ∉ english_sample) ws /\
    Forall plain (join (of_string " ") ws) /\
    split (join (of_string " ") ws) = ws.
Proof.
  split; [reflexivity|].
  exact (X8_process_tweet_returns_clean_words sample_stopwords "english"
           english_sample _ eq_refl).
Defined.

Lemma length_take_while_le (p : char -> bool) (s : text) :
  length (take_while p s) <= length s.
Proof. pose proof (length_drop_while p s). lia. Qed.

Lemma replace_go_length (occ : text -> option nat) (tok : text) (j : nat) (s : text) :
  (forall x n, occ x = Some n -> length tok <= n /\ n <= length x) ->
  length (replace_go occ tok j s) <= length s - j.
Proof.
  intros Hocc. revert j. induction s as [|c s IH]; intros j; [simpl; lia|].
  destruct j as [|j]; cbn [replace_go length].
  - destruct (occ (c :: s)) as [[|n]|] eqn:E.
    + cbn [length]. specialize (IH 0). lia.
    + apply Hocc in E as [H1 H2]. cbn [length] in H2.
      rewrite length_app. specialize (IH n). lia.
    + cbn [length]. specialize (IH 0). lia.
  - specialize (IH j). lia.
Qed.

Lemma url_at_bounds (x : text) (n : nat) :
  url_at x = Some n -> length (of_string "URL") <= n /\ n <= length x.
Proof.
  unfold url_at.
  destruct (List.find (fun scheme => starts_with (scheme ++ of_string "://") x)
              url_schemes) as [scheme|] eqn:E; [|discriminate].
  apply find_some in E as [_ E]. apply starts_with_length in E.
  rewrite length_app in E. change (length (of_string "://")) with 3 in E.
  intros [= <-]. change (length (of_string "URL")) with 3.
  pose proof (length_take_while_le non_space (drop (length scheme + 3) x)) as H.
  rewrite length_drop in H. lia.
Qed.

Lemma literal_at_bounds (x : text) (n : nat) :
  literal_at (of_string "@username") x = Some n ->
  length (of_string "REP") <= n /\ n <= length x.
Proof.
  unfold literal_at.
  destruct (starts_with (of_string "@username") x) eqn:E; [|discriminate].
  apply starts_with_length in E. intros [= <-].
  change (length (of_string "REP")) with 3.
  change (length (of_string "@username")) with 9 in *. lia.
Qed.

Lemma sub_trim_le (n : nat) (s : text) :
  length s <= n -> length (re_sub TRIM_REGEX TRIM_TAG s) <= length s.
Proof.
  revert s. induction n as [|n IH]; intros s Hn.
  - destruct s; [simpl; lia | simpl in Hn; lia].
  - destruct s as [|c s]; [simpl; lia|]. simpl in Hn.
    rewrite sub_trim_cons, length_app, repeat_length.
    pose proof (length_drop_while (N.eqb c) s) as Hlen.
    specialize (IH (drop_while (N.eqb c) s) ltac:(lia)).
    cbn [length]. destruct (is_dot c); lia.
Qed.

Lemma cleaned_length (stops : list text) (s : text) :
  length (cleaned stops s) <= length s.
Proof.
  unfold cleaned, words_of.
  rewrite sub_urls, sub_replies, sub_nonletters.
  pose proof (replace_go_length url_at (of_string "URL") 0 s url_at_bounds) as H1.
  fold (replace_each url_at (of_string "URL") s) in H1. fold (step1_urls s) in H1.
  pose proof (replace_go_length _ (of_string "REP") 0 (step1_urls s)
                literal_at_bounds) as H2.
  fold (replace_each (literal_at (of_string "@username")) (of_string "REP")
          (step1_urls s)) in H2.
  fold (step2_replies (step1_urls s)) in H2.
  set (x2 := step2_replies (step1_urls s)) in *.
  pose proof (sub_trim_le (length x2) x2 (le_n _)) as H3.
  set (x3 := re_sub TRIM_REGEX TRIM_TAG x2) in *.
  pose proof (filter_join_length (fun w => negb (mem w stops))
                (split (lower (step4_letters x3)))) as H4.
  pose proof (split_go_length (lower (step4_letters x3)) []) as H5.
  assert (Hl : length (lower (step4_letters x3)) = length x3).
  { unfold lower, step4_letters. rewrite !length_map. reflexivity. }
  rewrite Hl in H5. unfold split in *. simpl in H5. lia.
Qed.

(** X9. [process_tweet] never returns a text longer than the tweet: each
    URL and each [@username] is longer than the tag that replaces it,
    and nothing else adds a character. *)
Theorem X9_process_tweet_never_lengthens
    (sw : string -> result (list text)) (language : string) (text0 y : text) :
  Dataset.process_tweet sw text0 language = Return y ->
  length y <= length text0.
Proof.
  intros Hy. destruct (sw language) as [stops|e] eqn:Hsw.
  - rewrite (process_tweet_Return sw language stops text0 Hsw) in Hy.
    injection Hy as <-. apply cleaned_length.
  - rewrite (process_tweet_Raise sw language e text0 Hsw) in Hy. discriminate.
Qed.

Lemma X9_witness :
  Dataset.process_tweet sample_stopwords
    (of_string "Check http://x.co now!!! @username soooo good") "english"
  = Return (of_string "check url rep sooo good") /\
  length (of_string "check url rep sooo good")
  <= length (of_string "Check http://x.co now!!! @username soooo good").
Proof.
  assert (H : Dataset.process_tweet sample_stopwords
                (of_string "Check http://x.co now!!! @username soooo good")
                "english"
              = Return (of_string "check url rep sooo good")).
  { vm_compute. reflexivity. }
  split; [exact H|].
  exact (X9_process_tweet_never_lengthens sample_stopwords "english" _ _ H).
Defined.

(** ** Two passes of [process_tweet] reach a fixed point *)

Lemma has_run4_suffix (a b : text) :
  has_run4 (a ++ b) = false -> has_run4 b = false.
Proof.
  induction a as [|c a IH]; [auto|]. cbn [app has_run4].
  intros [_ H]%orb_false_iff. apply IH, H.
Qed.

Lemma starts_with_app_l (w a b : text) :
  starts_with w a = true -> starts_with w (a ++ b) = true.
Proof.
  revert a. induction w as [|x w IH]; intros a; [reflexivity|].
  destruct a as [|y a]; [discriminate|]. cbn [app starts_with].
  intros [H1 H2]%andb_true_iff. rewrite H1. apply IH, H2.
Qed.

Lemma has_run4_prefix (a b : text) :
  has_run4 (a ++ b) = false -> has_run4 a = false.
Proof.
  induction a as [|c a IH]; [reflexivity|]. cbn [app has_run4].
  intros [H1 H2]%orb_false_iff. rewrite (IH H2), orb_false_r.
  destruct (starts_with [c; c; c] a) eqn:E; [|reflexivity].
  rewrite (starts_with_app_l _ a b E) in H1. discriminate.
Qed.

(** The words [split] finds in a text without a run of four have none. *)
Lemma split_go_no_run4 (s cur : text) :
  has_run4 (rev cur ++ s) = false ->
  Forall (fun w => has_run4 w = false) (split_go cur s).
Proof.
  revert cur. induction s as [|c s IH]; intros cur H.
  - rewrite app_nil_r in H. simpl.
    destruct cur; [constructor | constructor; [exact H | constructor]].
  - cbn [split_go]. destruct (is_space c).
    + assert (Hs : Forall (fun w => has_run4 w = false) (split_go [] s)).
      { apply IH. simpl.
        apply (has_run4_suffix (rev cur ++ [c])). rewrite <- app_assoc. exact H. }
      destruct cur as [|x cur]; [exact Hs|].
      constructor; [|exact Hs]. exact (has_run4_prefix _ _ H).
    + apply IH. cbn [rev]. rewrite <- app_assoc. exact H.
Qed.

Lemma starts_with_repeat_other (c d : char) (k : nat) (a r : text) :
  c <> d ->
  starts_with (repeat c k) (a ++ d :: r) = starts_with (repeat c k) a.
Proof.
  intros Hcd. revert a. induction k as [|k IH]; intros a; [reflexivity|].
  destruct a as [|x a]; cbn [repeat app starts_with].
  - destruct (N.eqb_spec c d); [contradiction | reflexivity].
  - rewrite IH. reflexivity.
Qed.

Lemma has_run4_word_space (w r : text) :
  Forall (fun c => is_lower c = true) w ->
  has_run4 (w ++ chr " " :: r) = has_run4 w || has_run4 (chr " " :: r).
Proof.
  induction 1 as [|c w Hc Hw IH]; [reflexivity|].
  cbn [app has_run4]. rewrite IH. change [c; c; c] with (repeat c 3).
  rewrite starts_with_repeat_other by (intros ->; discriminate).
  rewrite orb_assoc. reflexivity.
Qed.

Lemma join_no_run4 (ws : list text) :
  Forall is_token ws ->
  Forall (fun w => has_run4 w = false) ws ->
  has_run4 (join (of_string " ") ws) = false.
Proof.
  induction 1 as [|w ws [Hne Hw] Hws IH]; intros Hrun; [reflexivity|].
  inversion Hrun as [|? ? Hr Hrun']; subst.
  destruct ws as [|w' ws]; [exact Hr|].
  change (join (of_string " ") (w :: w' :: ws))
    with (w ++ chr " " :: join (of_string " ") (w' :: ws)).
  rewrite (has_run4_word_space w _ Hw), Hr. cbn [orb has_run4].
  rewrite (IH Hrun'), orb_false_r.
  inversion Hws as [|? ? [Hne' Hw'] _]; subst.
  destruct w' as [|c' w']; [contradiction|].
  inversion Hw' as [|? ? Hc' _]; subst.
  assert (Hsp : (chr " " =? c')%N = false).
  { destruct (N.eqb_spec (chr " ") c') as [<-|]; [discriminate | reflexivity]. }
  destruct ws; cbn [join app starts_with]; rewrite Hsp; reflexivity.
Qed.

Lemma drop_while_repeat_app (c : char) (k : nat) (rest : text) :
  take_while (N.eqb c) rest = [] ->
  drop_while (N.eqb c) (repeat c k ++ rest) = rest.
Proof.
  intros H. induction k as [|k IH]; simpl.
  - destruct rest as [|x rest]; [reflexivity|]. simpl in *.
    destruct (c =? x)%N; [discriminate | reflexivity].
  - rewrite N.eqb_refl. exact IH.
Qed.

(** The third substitution keeps the characters of a text and leaves no
    run of four of a character the dot matches. *)
Lemma sub_trim_result (P : char -> Prop) (n : nat) (s : text) :
  length s <= n ->
  Forall (fun c => is_dot c = true) s ->
  Forall P s ->
  Forall P (re_sub TRIM_REGEX TRIM_TAG s) /\
  has_run4 (re_sub TRIM_REGEX TRIM_TAG s) = false /\
  (forall c, take_while (N.eqb c) s = [] ->
             take_while (N.eqb c) (re_sub TRIM_REGEX TRIM_TAG s) = []).
Proof.
  revert s. induction n as [|n IH]; intros s Hn Hd HP.
  - destruct s; [|simpl in Hn; lia].
    split; [constructor|]. split; [reflexivity | auto].
  - destruct s as [|c s];
      [split; [constructor|]; split; [reflexivity | auto]|]. simpl in Hn.
    inversion Hd as [|? ? Hc Hd']; subst. inversion HP as [|? ? HPc HP']; subst.
    pose proof (length_drop_while (N.eqb c) s) as Hlen.
    rewrite <- (take_drop_while (N.eqb c) s) in Hd', HP'.
    apply Forall_app in Hd' as [_ Hd'], HP' as [_ HP'].
    destruct (IH (drop_while (N.eqb c) s) ltac:(lia) Hd' HP') as (IH1 & IH2 & IH3).
    rewrite sub_trim_cons, Hc.
    set (r := re_sub TRIM_REGEX TRIM_TAG (drop_while (N.eqb c) s)) in *.
    set (m := Nat.min (S (length (take_while (N.eqb c) s))) 3).
    assert (Hm : exists m', m = S m' /\ m' <= 2).
    { exists (pred m). subst m. lia. }
    destruct Hm as (m' & -> & Hm').
    pose proof (IH3 c (take_while_drop_while _ _)) as Hr.
    split; [|split].
    + apply Forall_app. split; [|exact IH1].
      apply Forall_forall. intros x Hx%list_elem_of_In%repeat_spec. subst x. exact HPc.
    + cbn [repeat app]. rewrite has_run4_cons.
      rewrite (take_while_repeat_app c m' r Hr), (drop_while_repeat_app c m' r Hr), IH2.
      replace (3 <=? m') with false by (symmetry; apply Nat.leb_gt; lia).
      reflexivity.
    + intros x Hx. cbn [repeat app take_while] in *.
      destruct (x =? c)%N; [discriminate | reflexivity].
Qed.

(** X10. A second pass of [process_tweet] may still change the text (it
    cuts the runs that lower-casing made), a third never does: what the
    second pass returns is returned unchanged by every pass after it. *)
Theorem X10_two_passes_reach_a_fixed_point
    (sw : string -> result (list text)) (language : string) (text0 y z : text) :
  Dataset.process_tweet sw text0 language = Return y ->
  Dataset.process_tweet sw y language = Return z ->
  Dataset.process_tweet sw z language = Return z.
Proof.
  intros Hy Hz. destruct (sw language) as [stops|e] eqn:Hsw.
  2:{ rewrite (process_tweet_Raise sw language e text0 Hsw) in Hy. discriminate. }
  rewrite (process_tweet_Return sw language stops _ Hsw) in Hy.
  injection Hy as <-.
  rewrite (process_tweet_Return sw language stops _ Hsw) in Hz.
  injection Hz as <-.
  rewrite (process_tweet_Return sw language stops _ Hsw). f_equal.
  set (y := cleaned stops text0).
  assert (Hp : Forall plain y).
  { apply join_plain, filter_Forall, words_of_tokens. }
  assert (Hwords : Forall (fun w => has_run4 w = false) (words_of y)).
  { unfold words_of. rewrite sub_urls. unfold step1_urls, replace_each.
    rewrite (replace_go_id url_at _ _ url_at_plain Hp).
    rewrite sub_replies. unfold step2_replies, replace_each.
    rewrite (replace_go_id _ _ _ literal_at_plain Hp), sub_nonletters.
    destruct (sub_trim_result plain (length y) y (le_n _) (plain_is_dot y Hp) Hp)
      as (Hx & Hrun & _).
    rewrite (step4_letters_plain _ Hx), (lower_plain _ Hx).
    apply split_go_no_run4. exact Hrun. }
  unfold cleaned at 2. unfold cleaned at 1. fold (words_of y).
  apply cleaned_fixed.
  - apply filter_Forall, words_of_tokens.
  - apply filter_kept.
  - apply join_no_run4; apply filter_Forall; [apply words_of_tokens | exact Hwords].
Qed.

Lemma X10_witness :
  Dataset.process_tweet sample_stopwords (of_string "aaAA uuuhttp://x") "english"
    = Return (of_string "aaaa uuuurl") /\
  Dataset.process_tweet sample_stopwords (of_string "aaaa uuuurl") "english"
    = Return (of_string "aaa uuurl") /\
  Dataset.process_tweet sample_stopwords (of_string "aaa uuurl") "english"
    = Return (of_string "aaa uuurl").
Proof.
  assert (H1 : Dataset.process_tweet sample_stopwords
                 (of_string "aaAA uuuhttp://x") "english"
               = Return (of_string "aaaa uuuurl")) by (vm_compute; reflexivity).
  assert (H2 : Dataset.process_tweet sample_stopwords
                 (of_string "aaaa uuuurl") "english"
               = Return (of_string "aaa uuurl")) by (vm_compute; reflexivity).
  split; [exact H1|]. split; [exact H2|].
  exact (X10_two_passes_reach_a_fixed_point sample_stopwords "english" _ _ _ H1 H2).
Defined.

(** ** The constructor of [Predictor] *)

Lemma foldM_app {A B : Type} (f : B -> A -> result B) (xs ys : list A) (acc : B) :
  foldM f (xs ++ ys) acc = bind (foldM f xs acc) (foldM f ys).
Proof.
  revert acc. induction xs as [|x xs IH]; intros acc; simpl; [reflexivity|].
  destruct (f acc x); simpl; [apply IH | reflexivity].
Qed.

Lemma init_loop_contents (dk : Predictor.disk) (ps : list string)
    (self : Predictor.t) :
  (forall t, In t ps -> loads dk t) ->
  exists p,
    foldM (fun self personality =>
             let* self1 :=
               if Predictor.isfile dk (Predictor.vectorizer_path personality)
               then let* o := Predictor.pickle_load dk (Predictor.vectorizer_path personality) in
                    Return (Predictor.mk (Predictor.personalities self)
                              (Predictor.timeline self) (Predictor.features self)
                              (Predictor.models self)
                              (<[personality := o]> (Predictor.vectorizers self)))
               else Return self in
             if Predictor.isfile dk (Predictor.model_path personality)
             then let* o := Predictor.pickle_load dk (Predictor.model_path personality) in
                  Return (Predictor.mk (Predictor.personalities self1)
                            (Predictor.timeline self1) (Predictor.features self1)
                            (<[personality := o]> (Predictor.models self1))
                            (Predictor.vectorizers self1))
             else Return self1) ps self = Return p /\
    Predictor.personalities p = Predictor.personalities self /\
    Predictor.timeline p = Predictor.timeline self /\
    Predictor.features p = Predictor.features self /\
    forall t,
      Predictor.vectorizers p !! t =
        (if bool_decide (t ∈ ps) && Predictor.isfile dk (Predictor.vectorizer_path t)
         then unpickled (Predictor.pickle_load dk (Predictor.vectorizer_path t))
         else Predictor.vectorizers self !! t) /\
      Predictor.models p !! t =
        (if bool_decide (t ∈ ps) && Predictor.isfile dk (Predictor.model_path t)
         then unpickled (Predictor.pickle_load dk (Predictor.model_path t))
         else Predictor.models self !! t).
Proof.
  revert self. induction ps as [|t0 ps IH]; intros self Hloads.
  - exists self. repeat split; reflexivity.
  - destruct (Hloads t0 (or_introl eq_refl)) as [Hv Hm].
    cbn [foldM].
    set (self1 := if Predictor.isfile dk (Predictor.vectorizer_path t0)
                  then Predictor.mk (Predictor.personalities self)
                         (Predictor.timeline self) (Predictor.features self)
                         (Predictor.models self)
                         (match unpickled (Predictor.pickle_load dk (Predictor.vectorizer_path t0)) with
                          | Some o => <[t0 := o]> (Predictor.vectorizers self)
                          | None => Predictor.vectorizers self
                          end)
                  else self).
    assert (E1 : (if Predictor.isfile dk (Predictor.vectorizer_path t0)
                  then let* o := Predictor.pickle_load dk (Predictor.vectorizer_path t0) in
                       Return (Predictor.mk (Predictor.personalities self)
                                 (Predictor.timeline self) (Predictor.features self)
                                 (Predictor.models self)
                                 (<[t0 := o]> (Predictor.vectorizers self)))
                  else Return self) = Return self1).
    { subst self1. destruct (Predictor.isfile dk (Predictor.vectorizer_path t0));
        [|reflexivity].
      destruct (Hv eq_refl) as [o ->]. reflexivity. }
    rewrite E1. cbn [bind].
    set (self2 := if Predictor.isfile dk (Predictor.model_path t0)
                  then Predictor.mk (Predictor.personalities self1)
                         (Predictor.timeline self1) (Predictor.features self1)
                         (match unpickled (Predictor.pickle_load dk (Predictor.model_path t0)) with
                          | Some o => <[t0 := o]> (Predictor.models self1)
                          | None => Predictor.models self1
                          end)
                         (Predictor.vectorizers self1)
                  else self1).
    assert (E2 : (if Predictor.isfile dk (Predictor.model_path t0)
                  then let* o := Predictor.pickle_load dk (Predictor.model_path t0) in
                       Return (Predictor.mk (Predictor.personalities self1)
                                 (Predictor.timeline self1) (Predictor.features self1)
                                 (<[t0 := o]> (Predictor.models self1))
                                 (Predictor.vectorizers self1))
                  else Return self1) = Return self2).
    { subst self2. destruct (Predictor.isfile dk (Predictor.model_path t0));
        [|reflexivity].
      destruct (Hm eq_refl) as [o ->]. reflexivity. }
    rewrite E2.
    destruct (IH self2 (fun t Ht => Hloads t (or_intror Ht)))
      as (p & Hp & Hper & Htl & Hfs & Hlook).
    exists p. split; [exact Hp|].
    assert (F : Predictor.personalities self2 = Predictor.personalities self /\
                Predictor.timeline self2 = Predictor.timeline self /\
                Predictor.features self2 = Predictor.features self).
    { subst self2 self1.
      destruct (Predictor.isfile dk (Predictor.model_path t0)),
               (Predictor.isfile dk (Predictor.vectorizer_path t0));
        repeat split; reflexivity. }
    destruct F as (F1 & F2 & F3).
    split; [congruence|]. split; [congruence|]. split; [congruence|].
    intros t. destruct (Hlook t) as [Lv Lm]. rewrite Lv, Lm. clear Lv Lm Hlook Hp.
    assert (Hin : bool_decide (t ∈ t0 :: ps)
                  = bool_decide (t = t0) || bool_decide (t ∈ ps)).
    { apply eq_true_iff_eq. rewrite orb_true_iff, !bool_decide_eq_true.
      apply elem_of_cons. }
    rewrite Hin. clear Hin.
    assert (Sv : Predictor.vectorizers self2 !! t =
                 if bool_decide (t = t0)
                    && Predictor.isfile dk (Predictor.vectorizer_path t)
                 then unpickled (Predictor.pickle_load dk (Predictor.vectorizer_path t))
                 else Predictor.vectorizers self !! t).
    { subst self2 self1.
      destruct (bool_decide_reflect (t = t0)) as [->|Hne]; cbn [andb].
      - destruct (Predictor.isfile dk (Predictor.model_path t0)),
                 (Predictor.isfile dk (Predictor.vectorizer_path t0)) eqn:Ev;
          cbn; try reflexivity;
          destruct (Hv eq_refl) as [o Ho]; rewrite Ho; cbn;
          apply lookup_insert_eq.
      - destruct (Predictor.isfile dk (Predictor.model_path t0)),
                 (Predictor.isfile dk (Predictor.vectorizer_path t0));
          cbn; try reflexivity;
          destruct (unpickled (Predictor.pickle_load dk (Predictor.vectorizer_path t0)));
          try reflexivity; apply lookup_insert_ne; congruence. }
    assert (Sm : Predictor.models self2 !! t =
                 if bool_decide (t = t0)
                    && Predictor.isfile dk (Predictor.model_path t)
                 then unpickled (Predictor.pickle_load dk (Predictor.model_path t))
                 else Predictor.models self !! t).
    { clear Sv. subst self2 self1.
      destruct (bool_decide_reflect (t = t0)) as [->|Hne]; cbn [andb].
      - destruct (Predictor.isfile dk (Predictor.model_path t0)) eqn:Em;
          [|destruct (Predictor.isfile dk (Predictor.vectorizer_path t0)); reflexivity].
        destruct (Hm eq_refl) as [o Ho]. rewrite Ho. cbn. apply lookup_insert_eq.
      - destruct (Predictor.isfile dk (Predictor.model_path t0)),
                 (Predictor.isfile dk (Predictor.vectorizer_path t0));
          cbn; try reflexivity;
          destruct (unpickled (Predictor.pickle_load dk (Predictor.model_path t0)));
          try reflexivity; apply lookup_insert_ne; congruence. }
    rewrite Sv, Sm.
    destruct (bool_decide (t ∈ ps)), (bool_decide (t = t0)),
             (Predictor.isfile dk (Predictor.vectorizer_path t)),
             (Predictor.isfile dk (Predictor.model_path t));
      split; reflexivity.
Qed.

Lemma init_contents (dk : Predictor.disk) (tl : option (list text))
    (fs : option (list Predictor.cell)) (ps : list string) :
  (forall t, In t ps -> loads dk t) ->
  exists p,
    Predictor.init dk tl fs ps = Return p /\
    Predictor.personalities p = ps /\
    Predictor.timeline p = tl /\
    Predictor.features p = fs /\
    forall t,
      Predictor.vectorizers p !! t = entry dk Predictor.vectorizer_path ps t /\
      Predictor.models p !! t = entry dk Predictor.model_path ps t.
Proof.
  intros Hloads.
  destruct (init_loop_contents dk ps (Predictor.mk ps tl fs ∅ ∅) Hloads)
    as (p & Hp & H1 & H2 & H3 & Hlook).
  exists p. split; [exact Hp|]. split; [exact H1|]. split; [exact H2|].
  split; [exact H3|].
  intros t. destruct (Hlook t) as [Lv Lm]. cbn in Lv, Lm.
  rewrite lookup_empty in Lv, Lm. unfold entry. split; assumption.
Qed.

(** X11. When every file of a configured trait that is on the disk
    unpickles, [Predictor.__init__] succeeds, keeps its three arguments,
    and leaves in each dictionary exactly the objects unpickled from the
    files that exist: a trait whose file is absent gets no entry, a trait
    that is not configured gets none either, and nothing else is loaded. *)
Theorem X11_init_loads_the_files_that_exist
    (dk : Predictor.disk) (tl : option (list text))
    (fs : option (list Predictor.cell)) (ps : list string) :
  (forall t, In t ps -> loads dk t) ->
  exists p,
    Predictor.init dk tl fs ps = Return p /\
    Predictor.personalities p = ps /\
    Predictor.timeline p = tl /\
    Predictor.features p = fs /\
    forall t,
      Predictor.vectorizers p !! t = entry dk Predictor.vectorizer_path ps t /\
      Predictor.models p !! t = entry dk Predictor.model_path ps t.
Proof. apply init_contents. Qed.

Lemma disk_without_stable_model_loads (t : string) :
  loads disk_without_stable_model t.
Proof. split; intros _; eexists; reflexivity. Qed.

Lemma X11_witness :
  (forall t, In t Predictor.default_personalities ->
             loads disk_without_stable_model t) /\
  exists p,
    Predictor.init disk_without_stable_model (Some sample_doc)
      (Some sample_features) Predictor.default_personalities = Return p /\
    Predictor.personalities p = Predictor.default_personalities /\
    Predictor.timeline p = Some sample_doc /\
    Predictor.features p = Some sample_features /\
    forall t,
      Predictor.vectorizers p !! t =
        entry disk_without_stable_model Predictor.vectorizer_path
          Predictor.default_personalities t /\
      Predictor.models p !! t =
        entry disk_without_stable_model Predictor.model_path
          Predictor.default_personalities t.
Proof.
  split; [intros t _; apply disk_without_stable_model_loads|].
  apply X11_init_loads_the_files_that_exist.
  intros t _. apply disk_without_stable_model_loads.
Defined.

(** X12. A file that exists and does not unpickle aborts the
    construction: [Predictor.__init__] raises the exception of
    [pickle.load] for the first configured trait whose files fail, and
    no predictor is made, whatever was loaded before. *)
Theorem X12_init_stops_at_a_file_that_does_not_unpickle
    (dk : Predictor.disk) (tl : option (list text))
    (fs : option (list Predictor.cell)) (ps1 ps2 : list string) (t : string)
    (e : exn) :
  (forall t', In t' ps1 -> loads dk t') ->
  fails_to_load dk t e ->
  Predictor.init dk tl fs (ps1 ++ t :: ps2) = Raise e.
Proof.
  intros Hloads Hfail. unfold Predictor.init. rewrite foldM_app.
  destruct (init_loop_contents dk ps1
              (Predictor.mk (ps1 ++ t :: ps2) tl fs ∅ ∅) Hloads)
    as (p & -> & _).
  cbn [bind foldM].
  destruct Hfail as [[Hf He]|(Hv & Hf & He)].
  - rewrite Hf, He. reflexivity.
  - destruct (Predictor.isfile dk (Predictor.vectorizer_path t)) eqn:Ev.
    + destruct (Hv eq_refl) as [o ->]. cbn [bind]. rewrite Hf, He. reflexivity.
    + cbn [bind]. rewrite Hf, He. reflexivity.
Qed.

Lemma X12_witness :
  (forall t', In t' ["extroverted"%string] ->
              loads disk_with_corrupt_stable_model t') /\
  fails_to_load disk_with_corrupt_stable_model "stable"
    (PyErr "UnpicklingError" "invalid load key") /\
  Predictor.init disk_with_corrupt_stable_model (Some sample_doc)
    (Some sample_features) Predictor.default_personalities
  = Raise (PyErr "UnpicklingError" "invalid load key").
Proof.
  assert (H1 : forall t', In t' ["extroverted"%string] ->
                          loads disk_with_corrupt_stable_model t').
  { intros t' [<-|[]]. split; intros _; eexists; vm_compute; reflexivity. }
  assert (H2 : fails_to_load disk_with_corrupt_stable_model "stable"
                 (PyErr "UnpicklingError" "invalid load key")).
  { right. split; [intros _; eexists; vm_compute; reflexivity|].
    split; vm_compute; reflexivity. }
  split; [exact H1|]. split; [exact H2|].
  exact (X12_init_stops_at_a_file_that_does_not_unpickle
           disk_with_corrupt_stable_model (Some sample_doc) (Some sample_features)
           ["extroverted"%string] ["agreeable"; "conscientious"; "open"]%string
           "stable" _ H1 H2).
Defined.

(** ** [load_input] and [estimate_traits] *)

(** X13. The input of a model is one row: the row the vectorizer made of
    the document, followed by the features as trailing columns, in the
    order they were given. *)
Theorem X13_load_input_appends_the_features
    (p : Predictor.t) (t : string) (row : list Predictor.cell) :
  vectorized p t row ->
  Predictor.load_input p t = Return [row ++ feature_cells p] /\
  (forall fs, Predictor.features p = Some fs ->
     length (row ++ feature_cells p) = length row + length fs /\
     drop (length row) (row ++ feature_cells p) = fs /\
     take (length row) (row ++ feature_cells p) = row).
Proof.
  intros H. split; [exact (load_input_vectorized p t row H)|].
  intros fs Hfs. unfold feature_cells. rewrite Hfs.
  rewrite length_app, drop_app_length, take_app_length. auto.
Qed.

Lemma X13_witness :
  vectorized full_predictor "open" [Some (14 # 1)] /\
  Predictor.load_input full_predictor "open"
    = Return [[Some (14 # 1)] ++ feature_cells full_predictor].
Proof.
  assert (H : vectorized full_predictor "open" [Some (14 # 1)]).
  { eexists. split; vm_compute; reflexivity. }
  split; [exact H|].
  exact (proj1 (X13_load_input_appends_the_features full_predictor "open" _ H)).
Defined.

(** X14. [load_input] needs exactly one document: when the vectorizer
    returns another number of rows (the predictor was given no document,
    or several), stacking them with the single row of features raises
    [ValueError]. *)
Theorem X14_load_input_needs_one_document
    (p : Predictor.t) (t : string)
    (transform : option (list text) -> result Predictor.matrix)
    (m : Predictor.matrix) :
  Predictor.vectorizers p !! t = Some (Predictor.Vectorizer transform) ->
  transform (Predictor.timeline p) = Return m ->
  length m <> 1 ->
  raised_class (Predictor.load_input p t) = Some "ValueError"%string.
Proof.
  intros Hv Ht Hlen. unfold Predictor.load_input, Predictor.getitem.
  rewrite Hv. cbn [bind Predictor.get_transform]. rewrite Ht. cbn [bind].
  unfold Predictor.column_stack.
  assert (H1 : length (Predictor.features_row (Predictor.features p)) = 1).
  { destruct (Predictor.features p); reflexivity. }
  rewrite H1. destruct (Nat.eqb_spec (length m) 1); [contradiction | reflexivity].
Qed.

Lemma X14_witness :
  raised_class (Predictor.load_input two_document_predictor "open")
  = Some "ValueError"%string.
Proof.
  apply (X14_load_input_needs_one_document two_document_predictor "open"
           (fun docs =>
              match docs with
              | Some ds => Return (map (fun d => [Some (Z.of_nat (length d) # 1)]) ds)
              | None => Raise (TypeError "'NoneType' object is not iterable")
              end)
           [[Some (10 # 1)]; [Some (3 # 1)]]).
  - vm_compute. reflexivity.
  - vm_compute. reflexivity.
  - discriminate.
Defined.

Lemma estimate_loop_scores (p : Predictor.t) (ps : list string)
    (acc : gmap string Q) :
  (forall t, In t ps -> exists y, Predictor.score p t = Return y) ->
  exists out,
    foldM (fun output personality =>
             let* y := Predictor.score p personality in
             Return (<[personality := y]> output)) ps acc = Return out.
Proof.
  revert acc. induction ps as [|t ps IH]; intros acc H; [eexists; reflexivity|].
  cbn [foldM]. destruct (H t (or_introl eq_refl)) as [y ->]. cbn [bind].
  apply IH. intros t' Ht'. apply H. right. exact Ht'.
Qed.

(** X15. [estimate_traits] scores the traits in the configured order and
    stops at the first one that fails: the exception of that trait is
    what the call raises, and the scores computed before it are lost. *)
Theorem X15_estimate_traits_raises_the_first_failure
    (p : Predictor.t) (ps1 ps2 : list string) (t : string) (e : exn) :
  Predictor.personalities p = ps1 ++ t :: ps2 ->
  (forall t', In t' ps1 -> exists y, Predictor.score p t' = Return y) ->
  Predictor.score p t = Raise e ->
  Predictor.estimate_traits p = Raise e.
Proof.
  intros Hps Hok Hfail. unfold Predictor.estimate_traits.
  rewrite Hps, foldM_app.
  destruct (estimate_loop_scores p ps1 ∅ Hok) as [out ->].
  cbn [bind foldM]. rewrite Hfail. reflexivity.
Qed.

Lemma X15_witness :
  Predictor.personalities predictor_without_stable_model
    = ["extroverted"%string] ++ "stable"%string
        :: ["agreeable"; "conscientious"; "open"]%string /\
  (forall t', In t' ["extroverted"%string] ->
     exists y, Predictor.score predictor_without_stable_model t' = Return y) /\
  Predictor.score predictor_without_stable_model "stable" = Raise (KeyError "stable") /\
  Predictor.estimate_traits predictor_without_stable_model = Raise (KeyError "stable").
Proof.
  assert (H1 : forall t', In t' ["extroverted"%string] ->
     exists y, Predictor.score predictor_without_stable_model t' = Return y).
  { intros t' [<-|[]]. eexists. vm_compute. reflexivity. }
  assert (H2 : Predictor.score predictor_without_stable_model "stable"
               = Raise (KeyError "stable")).
  { vm_compute. reflexivity. }
  split; [reflexivity|]. split; [exact H1|]. split; [exact H2|].
  exact (X15_estimate_traits_raises_the_first_failure
           predictor_without_stable_model ["extroverted"%string]
           ["agreeable"; "conscientious"; "open"]%string "stable" _
           eq_refl H1 H2).
Defined.

(** ** [Respond.post] *)

Lemma texts_of_fields (post_data : list Dataset.tweet_dict) (tweets : list text) :
  texts_of post_data tweets -> text_fields post_data = Some tweets.
Proof.
  induction 1 as [|td tw tds tws Htd _ IH]; [reflexivity|].
  cbn [text_fields]. rewrite Htd, IH. reflexivity.
Qed.

Lemma init_fields (post_data : list Dataset.tweet_dict) :
  Dataset.init (Some post_data) =
  match text_fields post_data with
  | Some tws => Return (loaded tws)
  | None => Raise (KeyError "text")
  end.
Proof. exact (init_loop_fields post_data []). Qed.

Lemma build_cases (unicode_alnum : char -> bool)
    (sw : string -> result (list text)) (post_data : list Dataset.tweet_dict) :
  Respond.build unicode_alnum sw post_data =
  match text_fields post_data with
  | None => Raise (KeyError "text")
  | Some [] => Raise ZeroDivisionError
  | Some (tw :: tws) =>
      match sw "english"%string with
      | Raise e => Raise e
      | Return stops =>
          Return ([document stops (tw :: tws)],
                  features_of unicode_alnum (tw :: tws))
      end
  end.
Proof.
  unfold Respond.build. rewrite init_fields.
  destruct (text_fields post_data) as [[|tw tws]|]; [reflexivity | | reflexivity].
  cbn [bind].
  rewrite (generate_features_nonempty unicode_alnum (tw :: tws)) by discriminate.
  cbn [bind].
  destruct (sw "english"%string) as [stops|e] eqn:Hsw.
  - erewrite (process_Return sw stops) by (exact Hsw || reflexivity). reflexivity.
  - unfold Dataset.process. cbn [Dataset.timeline bind].
    rewrite (mapM_first_Raise _ e); [reflexivity|].
    apply process_tweet_Raise, Hsw.
Qed.

(** X16. What the endpoint does with a request body, and in which order
    it can fail: an object without ["text"] gives [KeyError('text')]; an
    empty list of posts gives [ZeroDivisionError]; after that a failing
    stopword loader gives the loader's exception; only then is the disk
    read, and the predictor is built on the one document and the six
    averages of the posts, with the five default traits. *)
Theorem X16_post_step_by_step
    (unicode_alnum : char -> bool) (sw : string -> result (list text))
    (dk : Predictor.disk) (post_data : list Dataset.tweet_dict) :
  Respond.post unicode_alnum sw dk post_data =
  match text_fields post_data with
  | None => Raise (KeyError "text")
  | Some [] => Raise ZeroDivisionError
  | Some (tw :: tws) =>
      match sw "english"%string with
      | Raise e => Raise e
      | Return stops =>
          let* predictor :=
            Predictor.init dk (Some [document stops (tw :: tws)])
              (Some (features_of unicode_alnum (tw :: tws)))
              Predictor.default_personalities in
          Predictor.estimate_traits predictor
      end
  end.
Proof.
  unfold Respond.post. rewrite build_cases.
  destruct (text_fields post_data) as [[|tw tws]|]; try reflexivity.
  destruct (sw "english"%string); reflexivity.
Qed.

(** X17. For a non-empty list of posts that all have a text, with the
    English stopword list there and a disk that serves the five default
    traits, the endpoint returns a mapping whose keys are exactly the
    five traits and whose value at a trait is the first output of its
    model, rounded to two decimals. *)
Theorem X17_post_returns_the_five_scores
    (unicode_alnum : char -> bool) (sw : string -> result (list text))
    (dk : Predictor.disk) (stops : list text)
    (post_data : list Dataset.tweet_dict) (tweets : list text)
    (f : string -> Q) :
  texts_of post_data tweets ->
  tweets <> [] ->
  sw "english"%string = Return stops ->
  (forall t, In t Predictor.default_personalities ->
     served dk (Some [document stops tweets])
       (features_of unicode_alnum tweets) t (f t)) ->
  exists out : gmap string Q,
    Respond.post unicode_alnum sw dk post_data = Return out /\
    dom out = list_to_set Predictor.default_personalities /\
    (forall t, In t Predictor.default_personalities ->
       out !! t = Some (round2 (f t))).
Proof.
  intros Htexts Hne Hsw Hserved.
  unfold Respond.post. rewrite build_cases, (texts_of_fields _ _ Htexts), Hsw.
  destruct tweets as [|tw tws]; [congruence|]. cbn [bind fst snd].
  set (doc := document stops (tw :: tws)) in *.
  set (fv := features_of unicode_alnum (tw :: tws)) in *.
  destruct (init_contents dk (Some [doc]) (Some fv) Predictor.default_personalities)
    as (p & Hp & Hps & Htl & Hfs & Hlook).
  { intros t Ht. destruct (Hserved t Ht)
      as (tr & pr & row & ys & _ & Hv & _ & Hm & _).
    split; intros _; eauto. }
  rewrite Hp. cbn [bind].
  assert (Hans : forall t, In t (Predictor.personalities p) -> answers p t (f t)).
  { rewrite Hps. intros t Ht.
    destruct (Hserved t Ht) as (tr & pr & row & ys & Fv & Hv & Fm & Hm & Htr & Hpr).
    destruct (Hlook t) as [Lv Lm]. unfold entry in Lv, Lm.
    rewrite bool_decide_eq_true_2 in Lv, Lm by (apply list_elem_of_In, Ht).
    rewrite Fv, Hv in Lv. rewrite Fm, Hm in Lm. cbn in Lv, Lm.
    exists row, pr, ys. split; [|split].
    - exists tr. rewrite Htl. auto.
    - exact Lm.
    - unfold feature_cells. rewrite Hfs. exact Hpr. }
  exists (scores_of f (Predictor.personalities p) ∅).
  split; [apply estimate_loop_answers, Hans|]. rewrite Hps.
  assert (Hl : forall t, In t Predictor.default_personalities ->
            scores_of f Predictor.default_personalities ∅ !! t = Some (round2 (f t))).
  { intros t Hin. rewrite scores_of_lookup, bool_decide_eq_true_2; [reflexivity|].
    by apply list_elem_of_In. }
  split; [|exact Hl].
  apply set_eq. intros t. rewrite elem_of_dom, elem_of_list_to_set, scores_of_lookup.
  destruct (decide (t ∈ Predictor.default_personalities)) as [Hin|Hnin].
  - rewrite bool_decide_eq_true_2 by done. split; eauto.
  - rewrite bool_decide_eq_false_2, lookup_empty by done.
    split; [intros [? ?]; discriminate | done].
Qed.

Lemma full_disk_serves (t : string) :
  In t Predictor.default_personalities ->
  served full_disk
    (Some [document english_sample
             (map of_string ["I love this!!! :) #great"; "meh"]%string)])
    (features_of ascii_only
       (map of_string ["I love this!!! :) #great"; "meh"]%string))
    t (5 # 8).
Proof.
  intros Hin.
  exists (fun docs =>
            match docs with
            | Some ds => Return (map (fun d => [Some (Z.of_nat (length d) # 1)]) ds)
            | None => Raise (TypeError "'NoneType' object is not iterable")
            end),
         (fun rows => Return (map (fun _ => 5 # 8) rows)),
         [Some (14 # 1)], [].
  simpl in Hin.
  repeat (destruct Hin as [<-|Hin];
    [repeat split; vm_compute; reflexivity|]).
  destruct Hin.
Qed.

Lemma X17_witness :
  texts_of two_posts (map of_string ["I love this!!! :) #great"; "meh"]%string) /\
  map of_string ["I love this!!! :) #great"; "meh"]%string <> [] /\
  sample_stopwords "english" = Return english_sample /\
  exists out : gmap string Q,
    Respond.post ascii_only sample_stopwords full_disk two_posts = Return out /\
    dom out = list_to_set Predictor.default_personalities /\
    (forall t, In t Predictor.default_personalities ->
       out !! t = Some (round2 (5 # 8))).
Proof.
  assert (Ht : texts_of two_posts
                 (map of_string ["I love this!!! :) #great"; "meh"]%string)).
  { repeat constructor. }
  split; [exact Ht|]. split; [discriminate|]. split; [reflexivity|].
  exact (X17_post_returns_the_five_scores ascii_only sample_stopwords full_disk
           english_sample two_posts _ (fun _ => 5 # 8) Ht ltac:(discriminate)
           eq_refl full_disk_serves).
Defined.

(** ** The batch as a whole *)

Lemma total_from (n : text -> nat) (tl : list text) (a : nat) :
  fold_left (fun count tweet => count + n tweet) tl a = a + total n tl.
Proof.
  unfold total. revert a. induction tl as [|tw tl IH]; intros a; simpl; [lia|].
  rewrite (IH (a + n tw)), (IH (n tw)). lia.
Qed.

Lemma total_cons (n : text -> nat) (tw : text) (tl : list text) :
  total n (tw :: tl) = n tw + total n tl.
Proof. unfold total at 1. simpl. apply total_from. Qed.

Lemma total_Permutation (n : text -> nat) (tl tl' : list text) :
  Permutation tl tl' -> total n tl = total n tl'.
Proof.
  induction 1 as [|x l l' _ IH|x y l|l l' l'' _ IH1 _ IH2];
    rewrite ?total_cons; try reflexivity; lia.
Qed.

Lemma average_Permutation (n : text -> nat) (tl tl' : list text) :
  Permutation tl tl' -> average n tl = average n tl'.
Proof.
  intros H. unfold average.
  rewrite (total_Permutation n tl tl' H), (Permutation_length H). reflexivity.
Qed.

(** X18. The six averages do not depend on the order of the posts: two
    request bodies with the same texts in another order give the same
    feature list (the documents may differ). *)
Theorem X18_features_do_not_depend_on_the_order
    (unicode_alnum : char -> bool) (sw : string -> result (list text))
    (stops : list text) (post_data post_data' : list Dataset.tweet_dict)
    (tweets tweets' : list text) :
  texts_of post_data tweets ->
  texts_of post_data' tweets' ->
  Permutation tweets tweets' ->
  tweets <> [] ->
  sw "english"%string = Return stops ->
  exists fv,
    Respond.build unicode_alnum sw post_data
      = Return ([document stops tweets], fv) /\
    Respond.build unicode_alnum sw post_data'
      = Return ([document stops tweets'], fv).
Proof.
  intros Ht Ht' Hperm Hne Hsw.
  assert (Hne' : tweets' <> []).
  { intros ->. apply Permutation_nil_r in Hperm. contradiction. }
  exists (features_of unicode_alnum tweets).
  rewrite !build_cases, (texts_of_fields _ _ Ht), (texts_of_fields _ _ Ht'), Hsw.
  destruct tweets as [|tw tws]; [congruence|].
  destruct tweets' as [|tw' tws']; [congruence|].
  split; [reflexivity|]. do 2 f_equal.
  unfold features_of.
  rewrite !(average_Permutation _ _ _ Hperm). reflexivity.
Qed.

Lemma X18_witness :
  texts_of two_posts (map of_string ["I love this!!! :) #great"; "meh"]%string) /\
  texts_of (rev two_posts)
    (map of_string ["meh"; "I love this!!! :) #great"]%string) /\
  Permutation (map of_string ["I love this!!! :) #great"; "meh"]%string)
              (map of_string ["meh"; "I love this!!! :) #great"]%string) /\
  map of_string ["I love this!!! :) #great"; "meh"]%string <> [] /\
  sample_stopwords "english" = Return english_sample /\
  exists fv,
    Respond.build ascii_only sample_stopwords two_posts
      = Return ([of_string "love great meh"], fv) /\
    Respond.build ascii_only sample_stopwords (rev two_posts)
      = Return ([of_string "meh love great"], fv).
Proof.
  assert (H1 : texts_of two_posts
                 (map of_string ["I love this!!! :) #great"; "meh"]%string)).
  { repeat constructor. }
  assert (H2 : texts_of (rev two_posts)
                 (map of_string ["meh"; "I love this!!! :) #great"]%string)).
  { repeat constructor. }
  assert (H3 : Permutation
                 (map of_string ["I love this!!! :) #great"; "meh"]%string)
                 (map of_string ["meh"; "I love this!!! :) #great"]%string)).
  { apply perm_swap. }
  split; [exact H1|]. split; [exact H2|]. split; [exact H3|].
  split; [discriminate|]. split; [reflexivity|].
  destruct (X18_features_do_not_depend_on_the_order ascii_only sample_stopwords
              english_sample two_posts (rev two_posts) _ _ H1 H2 H3
              ltac:(discriminate) eq_refl) as (fv & Hb & Hb').
  exists fv. split; [exact Hb | exact Hb'].
Defined.

Lemma split_go_space (a b cur : text) :
  split_go cur (a ++ chr " " :: b) = split_go cur a ++ split_go [] b.
Proof.
  revert cur. induction a as [|c a IH]; intros cur.
  - cbn [app split_go]. change (is_space (chr " ")) with true. cbv iota.
    destruct cur; reflexivity.
  - cbn [app split_go]. destruct (is_space c); [|apply IH].
    destruct cur; rewrite IH; reflexivity.
Qed.

Lemma split_join_texts (xs : list text) :
  split (join (of_string " ") xs) = concat (map split xs).
Proof.
  unfold split. induction xs as [|x xs IH]; [reflexivity|].
  destruct xs as [|y xs].
  - simpl. rewrite app_nil_r. reflexivity.
  - change (join (of_string " ") (x :: y :: xs))
      with (x ++ chr " " :: join (of_string " ") (y :: xs)).
    rewrite split_go_space, IH. reflexivity.
Qed.

Lemma split_cleaned (stops : list text) (text0 : text) :
  split (cleaned stops text0) = kept_words stops text0.
Proof.
  unfold cleaned, kept_words. apply split_join, filter_Forall, words_of_tokens.
Qed.

(** X19. The document [process] returns holds, separated by white space,
    exactly the words kept of every tweet, tweet after tweet: splitting
    it gives them back in order. A tweet of which no word is kept adds
    no word (only its separating space). *)
Theorem X19_document_holds_the_kept_words
    (sw : string -> result (list text)) (stops : list text) (d : Dataset.t)
    (tl : list text) :
  sw "english"%string = Return stops ->
  Dataset.timeline d = Some tl ->
  exists d' fv,
    Dataset.process sw d = Return (d', ([document stops tl], fv)) /\
    Dataset.processed_timeline d' = Some (document stops tl) /\
    split (document stops tl) = concat (map (kept_words stops) tl).
Proof.
  intros Hsw Htl. eexists _, _.
  split; [exact (process_Return sw stops d tl Hsw Htl)|].
  split; [reflexivity|].
  unfold document. rewrite split_join_texts, map_map. f_equal.
  apply map_ext. intros tw. apply split_cleaned.
Qed.

Lemma X19_witness :
  sample_stopwords "english" = Return english_sample /\
  Dataset.timeline (loaded (map of_string ["so very"; "good!!!"; "the"; "#day"]%string))
    = Some (map of_string ["so very"; "good!!!"; "the"; "#day"]%string) /\
  exists d' fv,
    Dataset.process sample_stopwords
      (loaded (map of_string ["so very"; "good!!!"; "the"; "#day"]%string))
    = Return (d', ([document english_sample
                      (map of_string ["so very"; "good!!!"; "the"; "#day"]%string)],
                   fv)) /\
    Dataset.processed_timeline d'
    = Some (document english_sample
              (map of_string ["so very"; "good!!!"; "the"; "#day"]%string)) /\
    split (document english_sample
             (map of_string ["so very"; "good!!!"; "the"; "#day"]%string))
    = concat (map (kept_words english_sample)
                (map of_string ["so very"; "good!!!"; "the"; "#day"]%string)).
Proof.
  split; [reflexivity|]. split; [reflexivity|].
  exact (X19_document_holds_the_kept_words sample_stopwords english_sample
           (loaded (map of_string ["so very"; "good!!!"; "the"; "#day"]%string))
           _ eq_refl eq_refl).
Defined.
